(** * SmartSoil: the live-telemetry page and the analytics page

    A shallow embedding of [pages/Live.tsx] and [pages/Analytics.tsx]:
    the advisory text built from the current reading and the threshold map,
    the window statistics, and the React state of the two pages as a
    transition system driven by user selections, resolved queries and
    realtime payloads.

    JavaScript numbers are IEEE-754 binary64 values, hence [float] with the
    primitive comparisons and arithmetic. *)

From Stdlib Require Import ZArith List Floats Lia Bool.
From stdpp Require Import base gmap strings list.
Import ListNotations.

Local Open Scope string_scope.

(** ** JavaScript values and built-ins used by the pages *)

Module JS.

(** What a [number | null] property holds at run time; the pages also
    guard against [undefined]. *)
Inductive value :=
| Null
| Undefined
| Num (x : float).

(** [{ data, error }] as returned by a query. *)
Inductive result (A : Type) :=
| Data (a : A)
| Error (e : string).
Arguments Data {A} a.
Arguments Error {A} e.

(** [Number(v)] on the values above: null is 0, undefined is NaN. *)
Definition Number (v : value) : float :=
  match v with
  | Null => 0%float
  | Undefined => PrimFloat.nan
  | Num x => x
  end.

(** [Number.isNaN] *)
Definition Number_isNaN (x : float) : bool := PrimFloat.is_nan x.

Definition is_neg_zero (x : float) : bool :=
  PrimFloat.is_zero x && PrimFloat.get_sign x.

Definition is_pos_zero (x : float) : bool :=
  PrimFloat.is_zero x && negb (PrimFloat.get_sign x).

(** [Math.min(...l)], ECMA-262 21.3.2.25: NaN if any argument is NaN,
    otherwise the running lowest starting from +Infinity, with -0 below +0. *)
Definition min_step (lowest number : float) : float :=
  if is_neg_zero number && is_pos_zero lowest then number
  else if PrimFloat.ltb number lowest then number
  else lowest.

Definition Math_min (l : list float) : float :=
  if existsb PrimFloat.is_nan l then PrimFloat.nan
  else fold_left min_step l PrimFloat.infinity.

(** [Math.max(...l)], ECMA-262 21.3.2.24. *)
Definition max_step (highest number : float) : float :=
  if is_pos_zero number && is_neg_zero highest then number
  else if PrimFloat.ltb highest number then number
  else highest.

Definition Math_max (l : list float) : float :=
  if existsb PrimFloat.is_nan l then PrimFloat.nan
  else fold_left max_step l PrimFloat.neg_infinity.

(** [l.length] as a number. *)
Definition length_number {A} (l : list A) : float :=
  PrimFloat.of_uint63 (Uint63.of_Z (Z.of_nat (length l))).

(** [l.join(sep)] *)
Definition join (sep : string) (l : list string) : string :=
  String.concat sep l.

(** [l.includes(x)] on strings *)
Definition includes (l : list string) (x : string) : bool :=
  existsb (String.eqb x) l.

End JS.

(** ** type.ts *)

Definition Crop := string.

Record Dev := {
  dev_id_ : string;        (* id *)
  dev_name : string;       (* name *)
  dev_ing_tok : string;    (* ing_tok *)
  dev_cur_crop : option Crop  (* cur_crop: Crop | null *)
}.

Record TelemRow := {
  t_dev_id : string;
  t_upd_at : string;
  t_crop : Crop;
  t_ph : JS.value;
  t_moist_pct : JS.value;
  t_temp_c : JS.value;
  t_ec_ms : JS.value;
  t_n_mgkg : JS.value;
  t_p_mgkg : JS.value;
  t_k_mgkg : JS.value
}.

(** The seven numeric columns, the [key] of the parameter tables. *)
Inductive ParamKey :=
| moist_pct | temp_c | ec_ms | ph | n_mgkg | p_mgkg | k_mgkg.

#[global] Instance ParamKey_eq_dec : EqDecision ParamKey.
Proof. solve_decision. Defined.

(** [p.key as string] *)
Definition key_string (k : ParamKey) : string :=
  match k with
  | moist_pct => "moist_pct"
  | temp_c => "temp_c"
  | ec_ms => "ec_ms"
  | ph => "ph"
  | n_mgkg => "n_mgkg"
  | p_mgkg => "p_mgkg"
  | k_mgkg => "k_mgkg"
  end.

(** [telem[p.key]] *)
Definition telem_get (t : TelemRow) (k : ParamKey) : JS.value :=
  match k with
  | moist_pct => t_moist_pct t
  | temp_c => t_temp_c t
  | ec_ms => t_ec_ms t
  | ph => t_ph t
  | n_mgkg => t_n_mgkg t
  | p_mgkg => t_p_mgkg t
  | k_mgkg => t_k_mgkg t
  end.

(** A row of [sens_rdg_30m] as the store returns it. *)
Record Rdg30m := {
  r_bkt_30m : string;
  r_crop : Crop;
  r_ph : JS.value;
  r_moist_pct : JS.value;
  r_temp_c : JS.value;
  r_ec_ms : JS.value;
  r_n_mgkg : JS.value;
  r_p_mgkg : JS.value;
  r_k_mgkg : JS.value
}.

(** ** pages/Live.tsx *)

Module Live.

Record Param := {
  key : ParamKey;
  label : string;
  unit : option string;
  icon : string;
  short : string
}.

Definition PARAMS : list Param := [
  {| key := moist_pct; label := "Moisture";    unit := Some "%";     icon := "üíß"; short := "MOISTURE" |};
  {| key := temp_c;    label := "Temperature"; unit := Some "¬∞C";   icon := "üå°Ô∏è"; short := "TEMPERATURE" |};
  {| key := ec_ms;     label := "EC";          unit := Some "mS/cm"; icon := "‚ö°"; short := "EC" |};
  {| key := ph;        label := "pH";          unit := None;         icon := "üß™"; short := "PH" |};
  {| key := n_mgkg;    label := "Nitrogen";    unit := Some "mg/kg"; icon := "N";   short := "NITROGEN" |};
  {| key := p_mgkg;    label := "Phosphorus";  unit := Some "mg/kg"; icon := "P";   short := "PHOSPHORUS" |};
  {| key := k_mgkg;    label := "Potassium";   unit := Some "mg/kg"; icon := "K";   short := "POTASSIUM" |}
].

(** A [crop_thr] row. *)
Record ThrRow := {
  thr_crop : Crop;
  thr_param : string;
  val_min : float;
  val_max : float;
  thr_unit : string;
  descr : option string
}.

(** An [alt_crop_reco] row. *)
Record AltRec := {
  soil_param : string;
  reading_range : string;
  recommended_crop : string
}.

(** [rawVal !== null && rawVal !== undefined ? Number(rawVal) : null] *)
Definition numVal_of (rawVal : JS.value) : option float :=
  match rawVal with
  | JS.Null | JS.Undefined => None
  | JS.Num x => Some x
  end.

(** The branch taken by [if (numVal < min) ... else if (numVal > max) ...]. *)
Inductive Status := LOW | OK | HIGH.

Definition classify (numVal : float) (thr : ThrRow) : Status :=
  if PrimFloat.ltb numVal (val_min thr) then LOW
  else if PrimFloat.ltb (val_max thr) numVal then HIGH
  else OK.

Definition nl : string := String (Ascii.ascii_of_nat 10) EmptyString.

Section Advisory.

(** The string a number takes inside a template literal
    (Number::toString, ECMA-262 6.1.6.1.20). *)
Variable numToString : float -> string.

(** [thr.unit || p.unit || ''] *)
Definition unit_of (thr : ThrRow) (p : Param) : string :=
  if negb (String.eqb (thr_unit thr) "") then thr_unit thr
  else match unit p with
       | Some u => u
       | None => ""
       end.

Definition issue_line (dir : string) (p : Param) (numVal : float) (thr : ThrRow) : string :=
  let unit := unit_of thr p in
  let baseDesc := match descr thr with Some d => d | None => "" end in
  "‚Ä¢ " +:+ label p +:+ " is " +:+ dir +:+ " (" +:+ numToString numVal
    +:+ (if negb (String.eqb unit "") then " " +:+ unit else "")
    +:+ "; optimal " +:+ numToString (val_min thr) +:+ "‚Äì" +:+ numToString (val_max thr)
    +:+ " " +:+ unit +:+ "). " +:+ baseDesc +:+ "<br>".

(** The line pushed for parameter [p], if any: the body of the
    [PARAMS.forEach] callback of [buildCropReco]. *)
Definition crop_issue (telem : TelemRow) (thrMap : gmap string ThrRow) (p : Param)
  : option string :=
  match numVal_of (telem_get telem (key p)) with
  | None => None
  | Some numVal =>
      if JS.Number_isNaN numVal then None
      else match thrMap !! key_string (key p) with
           | None => None
           | Some thr =>
               match classify numVal thr with
               | LOW => Some (issue_line "LOW" p numVal thr)
               | HIGH => Some (issue_line "HIGH" p numVal thr)
               | OK => None
               end
           end
  end.

Definition push_issue (telem : TelemRow) (thrMap : gmap string ThrRow)
    (issues : list string) (p : Param) : list string :=
  match crop_issue telem thrMap p with
  | Some line => issues ++ [line]
  | None => issues
  end.

(** The [issues] array after the loop over the given parameters. *)
Definition crop_issues (params : list Param) (telem : TelemRow)
    (thrMap : gmap string ThrRow) : list string :=
  fold_left (push_issue telem thrMap) params [].

Definition buildCropReco (telem : option TelemRow) (thrMap : gmap string ThrRow) : string :=
  match telem with
  | None => "Waiting for real-time sensor data. Once readings are available, this area will highlight which parameters are below or above the optimal range for the selected crop."
  | Some telem =>
      let issues := crop_issues PARAMS telem thrMap in
      match issues with
      | [] => "‚Ä¢ The selected crop is doing well. Maintain your current practices."
      | _ => JS.join nl issues
      end
  end.

End Advisory.

(** [altCropRecommendations.find(rec => rec.soil_param === sp && rec.reading_range === rr)] *)
Definition find_alt (recs : list AltRec) (sp rr : string) : option AltRec :=
  List.find (fun rec => String.eqb (soil_param rec) sp && String.eqb (reading_range rec) rr) recs.

(** [if (altCrop && !recommendedCrops.includes(altCrop.recommended_crop)) push] *)
Definition push_alt (recommendedCrops : list string) (altCrop : option AltRec) : list string :=
  match altCrop with
  | Some a =>
      if negb (JS.includes recommendedCrops (recommended_crop a))
      then recommendedCrops ++ [recommended_crop a]
      else recommendedCrops
  | None => recommendedCrops
  end.

(** The fixed condition tested for a parameter and the table key it maps
    to: the three [if (p.key === ...)] blocks of [buildAltReco]. *)
Definition alt_condition (k : ParamKey) (numVal : float) : option (string * string) :=
  match k with
  | moist_pct =>
      if PrimFloat.ltb numVal 40 then Some ("Soil Moisture", "<40% (dry)") else None
  | ec_ms =>
      if PrimFloat.ltb 2.0 numVal then Some ("EC", "High EC (>2.0 mS/cm)") else None
  | temp_c =>
      if PrimFloat.ltb 30 numVal then Some ("Soil Temperature", ">30¬∞ C (hot soil)") else None
  | _ => None
  end.

(** The body of the [PARAMS.forEach] callback of [buildAltReco]. *)
Definition alt_step (telem : TelemRow) (thrMap : gmap string ThrRow)
    (altCropRecommendations : list AltRec)
    (recommendedCrops : list string) (p : Param) : list string :=
  match numVal_of (telem_get telem (key p)) with
  | None => recommendedCrops
  | Some numVal =>
      if JS.Number_isNaN numVal then recommendedCrops
      else match thrMap !! key_string (key p) with
           | None => recommendedCrops
           | Some _ =>
               match alt_condition (key p) numVal with
               | Some (sp, rr) =>
                   push_alt recommendedCrops (find_alt altCropRecommendations sp rr)
               | None => recommendedCrops
               end
           end
  end.

Definition alt_crops (params : list Param) (telem : TelemRow)
    (thrMap : gmap string ThrRow) (altCropRecommendations : list AltRec) : list string :=
  fold_left (alt_step telem thrMap altCropRecommendations) params [].

Definition buildAltReco (telem : option TelemRow) (thrMap : gmap string ThrRow)
    (altCropRecommendations : list AltRec) : string :=
  match telem with
  | None => "Alternative crop suggestions will appear here once stable soil readings are available. For now, focus on reaching the optimal ranges for the selected crop."
  | Some telem =>
      let recommendedCrops := alt_crops PARAMS telem thrMap altCropRecommendations in
      match recommendedCrops with
      | [] => "‚Ä¢ The selected crop is doing well. If issues arise, consider alternative crops like Lemongrass or Okra based on soil conditions."
      | _ => "‚Ä¢ Based on your current soil conditions, consider switching to one of the following alternative crops: "
               +:+ JS.join ", " recommendedCrops +:+ "."
      end
  end.

(** *** The component: state, effects and handlers *)

(** A [crop_thr] row as the store returns it. *)
Record ThrDbRow := {
  db_crop : Crop;
  db_param : string;
  db_val_min : JS.value;
  db_val_max : JS.value;
  db_unit : string;
  db_descr : option string
}.

(** An element of [chartData]. *)
Record ChartPoint := {
  c_t : string;
  c_ph : JS.value;
  c_moist_pct : JS.value;
  c_temp_c : JS.value;
  c_ec_ms : JS.value;
  c_n_mgkg : JS.value;
  c_p_mgkg : JS.value;
  c_k_mgkg : JS.value
}.

(** The queries the page sends. *)
Inductive Request :=
| LoadDevice
| LoadTelem (c : Crop)
| LoadThr (c : Crop)
| LoadAlt
| LoadChart (c : Crop)
| UpdateCurCrop (dev : string) (c : Crop).

(** A query in flight together with the [cancelled] variable of the
    effect run that sent it. *)
Record Pending := {
  request : Request;
  cancelled : bool
}.

Inductive Response :=
| DeviceRow (r : JS.result (option Dev))
| TelemRows (r : JS.result (option TelemRow))
| ThrRows (r : JS.result (option (list ThrDbRow)))
| AltRows (r : JS.result (list AltRec))
| ChartRows (r : JS.result (list Rdg30m))
| Updated (error : option string).

Record State := {
  dev : option Dev;
  crop : Crop;
  telem : option TelemRow;
  loading : bool;
  thrMap : gmap string ThrRow;
  altCropRecommendations : list AltRec;
  chartData : list ChartPoint;
  (* what the runtime holds besides the React state *)
  inflight : gmap nat Pending;
  next_id : nat;
  channel : option Crop;       (* [crop] captured by the handlers of the open channel *)
  console : list string        (* console.error *)
}.

Definition setDev (d : option Dev) (s : State) : State :=
  {| dev := d; crop := crop s; telem := telem s; loading := loading s;
     thrMap := thrMap s; altCropRecommendations := altCropRecommendations s;
     chartData := chartData s; inflight := inflight s; next_id := next_id s;
     channel := channel s; console := console s |}.

Definition with_crop (c : Crop) (s : State) : State :=
  {| dev := dev s; crop := c; telem := telem s; loading := loading s;
     thrMap := thrMap s; altCropRecommendations := altCropRecommendations s;
     chartData := chartData s; inflight := inflight s; next_id := next_id s;
     channel := channel s; console := console s |}.

Definition setTelem (t : option TelemRow) (s : State) : State :=
  {| dev := dev s; crop := crop s; telem := t; loading := loading s;
     thrMap := thrMap s; altCropRecommendations := altCropRecommendations s;
     chartData := chartData s; inflight := inflight s; next_id := next_id s;
     channel := channel s; console := console s |}.

Definition setLoading (b : bool) (s : State) : State :=
  {| dev := dev s; crop := crop s; telem := telem s; loading := b;
     thrMap := thrMap s; altCropRecommendations := altCropRecommendations s;
     chartData := chartData s; inflight := inflight s; next_id := next_id s;
     channel := channel s; console := console s |}.

Definition setThrMap (m : gmap string ThrRow) (s : State) : State :=
  {| dev := dev s; crop := crop s; telem := telem s; loading := loading s;
     thrMap := m; altCropRecommendations := altCropRecommendations s;
     chartData := chartData s; inflight := inflight s; next_id := next_id s;
     channel := channel s; console := console s |}.

Definition setAltCropRecommendations (l : list AltRec) (s : State) : State :=
  {| dev := dev s; crop := crop s; telem := telem s; loading := loading s;
     thrMap := thrMap s; altCropRecommendations := l;
     chartData := chartData s; inflight := inflight s; next_id := next_id s;
     channel := channel s; console := console s |}.

Definition setChartData (l : list ChartPoint) (s : State) : State :=
  {| dev := dev s; crop := crop s; telem := telem s; loading := loading s;
     thrMap := thrMap s; altCropRecommendations := altCropRecommendations s;
     chartData := l; inflight := inflight s; next_id := next_id s;
     channel := channel s; console := console s |}.

Definition with_inflight (m : gmap nat Pending) (s : State) : State :=
  {| dev := dev s; crop := crop s; telem := telem s; loading := loading s;
     thrMap := thrMap s; altCropRecommendations := altCropRecommendations s;
     chartData := chartData s; inflight := m; next_id := next_id s;
     channel := channel s; console := console s |}.

Definition with_next_id (n : nat) (s : State) : State :=
  {| dev := dev s; crop := crop s; telem := telem s; loading := loading s;
     thrMap := thrMap s; altCropRecommendations := altCropRecommendations s;
     chartData := chartData s; inflight := inflight s; next_id := n;
     channel := channel s; console := console s |}.

Definition with_channel (c : option Crop) (s : State) : State :=
  {| dev := dev s; crop := crop s; telem := telem s; loading := loading s;
     thrMap := thrMap s; altCropRecommendations := altCropRecommendations s;
     chartData := chartData s; inflight := inflight s; next_id := next_id s;
     channel := c; console := console s |}.

(** [console.error(msg, error)] *)
Definition console_error (msg error : string) (s : State) : State :=
  {| dev := dev s; crop := crop s; telem := telem s; loading := loading s;
     thrMap := thrMap s; altCropRecommendations := altCropRecommendations s;
     chartData := chartData s; inflight := inflight s; next_id := next_id s;
     channel := channel s; console := console s ++ [msg +:+ " " +:+ error] |}.

(** Sending a query: it stays in flight, not cancelled, until it resolves. *)
Definition issue (r : Request) (s : State) : State :=
  with_next_id (S (next_id s))
    (with_inflight (<[next_id s := {| request := r; cancelled := false |}]> (inflight s)) s).

(** The cleanups [cancelled = true] of the two effects that declare the
    variable: the latest-reading load and the threshold load. The chart
    effect returns no cleanup. *)
Definition cancel (p : Pending) : Pending :=
  match request p with
  | LoadTelem _ | LoadThr _ => {| request := request p; cancelled := true |}
  | _ => p
  end.

(** The effects with dependency [[crop]], in source order, for a render in
    which [crop] is [c]: clean up the previous run, then load the latest
    reading, open the channel, load the thresholds, load the chart rows. *)
Definition crop_effects (c : Crop) (s : State) : State :=
  let s := with_inflight (cancel <$> inflight s) s in   (* cancelled = true *)
  let s := with_channel None s in                       (* sb.removeChannel(channel) *)
  let s := issue (LoadTelem c) s in
  let s := with_channel (Some c) s in
  let s := issue (LoadThr c) s in
  issue (LoadChart c) s.

(** [setCrop(c)] followed by the render it schedules; setting the value the
    state already has schedules nothing. *)
Definition setCrop (c : Crop) (s : State) : State :=
  if decide (c = crop s) then s else crop_effects c (with_crop c s).

(** The state once the page is mounted and every effect has run once. *)
Definition mounted : State :=
  let s := {| dev := None; crop := "pechay"; telem := None; loading := true;
              thrMap := ∅; altCropRecommendations := []; chartData := [];
              inflight := ∅; next_id := 0; channel := None; console := [] |} in
  let s := issue LoadDevice s in
  let s := issue (LoadTelem (crop s)) s in
  let s := with_channel (Some (crop s)) s in
  let s := issue (LoadThr (crop s)) s in
  let s := issue LoadAlt s in
  issue (LoadChart (crop s)) s.

(** [handleCropChange] up to its [await]. *)
Definition handleCropChange (newCrop : Crop) (s : State) : State :=
  let s := setCrop newCrop s in
  match dev s with
  | None => s
  | Some d => issue (UpdateCurCrop (dev_id_ d) newCrop) s
  end.

(** [if (d.cur_crop)] *)
Definition truthy_crop (c : option Crop) : option Crop :=
  match c with
  | Some c => if String.eqb c "" then None else Some c
  | None => None
  end.

(** The map built by [data.forEach(row => map[row.param] = ...)]. *)
Definition thr_of_db (row : ThrDbRow) : ThrRow :=
  {| thr_crop := db_crop row; thr_param := db_param row;
     val_min := JS.Number (db_val_min row); val_max := JS.Number (db_val_max row);
     thr_unit := db_unit row; descr := db_descr row |}.

Definition build_thrMap (data : list ThrDbRow) : gmap string ThrRow :=
  fold_left (fun map row => <[db_param row := thr_of_db row]> map) data ∅.

Section Machine.

(** [new Date(s).toLocaleString()] *)
Variable toLocaleString : string -> string.

Definition chart_point (r : Rdg30m) : ChartPoint :=
  {| c_t := toLocaleString (r_bkt_30m r); c_ph := r_ph r; c_moist_pct := r_moist_pct r;
     c_temp_c := r_temp_c r; c_ec_ms := r_ec_ms r; c_n_mgkg := r_n_mgkg r;
     c_p_mgkg := r_p_mgkg r; c_k_mgkg := r_k_mgkg r |}.

(** What runs after the [await] of the query [p] with answer [resp]. *)
Definition resolve (p : Pending) (resp : Response) (s : State) : State :=
  match request p, resp with
  | LoadDevice, DeviceRow (JS.Error e) =>
      setLoading false (console_error "Error loading device:" e s)
  | LoadDevice, DeviceRow (JS.Data None) => setLoading false s
  | LoadDevice, DeviceRow (JS.Data (Some d)) =>
      let s := setDev (Some d) s in
      let s := match truthy_crop (dev_cur_crop d) with
               | Some c => setCrop c s
               | None => s
               end in
      setLoading false s
  | LoadTelem _, TelemRows (JS.Error e) => console_error "Error loading rt telem:" e s
  | LoadTelem _, TelemRows (JS.Data data) =>
      if cancelled p then s else setTelem data s
  | LoadThr _, ThrRows (JS.Error e) => console_error "Error loading crop_thr:" e s
  | LoadThr _, ThrRows (JS.Data data) =>
      if cancelled p then s
      else match data with
           | Some data => setThrMap (build_thrMap data) s
           | None => s
           end
  | LoadAlt, AltRows (JS.Error e) =>
      console_error "Error fetching alternative crop data:" e s
  | LoadAlt, AltRows (JS.Data data) => setAltCropRecommendations data s
  | LoadChart _, ChartRows (JS.Error e) => console_error "Error fetching chart data:" e s
  | LoadChart _, ChartRows (JS.Data data) => setChartData (map chart_point data) s
  | UpdateCurCrop _ _, Updated (Some e) => console_error "Error updating cur_crop:" e s
  | UpdateCurCrop _ _, Updated None => s
  | _, _ => s
  end.

(** The realtime INSERT and UPDATE handlers of the open channel. *)
Definition on_payload (row : TelemRow) (s : State) : State :=
  match channel s with
  | Some crop => if String.eqb (t_crop row) crop then setTelem (Some row) s else s
  | None => s
  end.

Inductive Event :=
| Select (c : Crop)                      (* onChange of the crop select *)
| Resolve (id : nat) (resp : Response)   (* a query in flight resolves *)
| Payload (row : TelemRow).              (* a realtime payload arrives *)

Definition step (s : State) (e : Event) : State :=
  match e with
  | Select c => if loading s then s (* disabled={loading} *) else handleCropChange c s
  | Resolve id resp =>
      match inflight s !! id with
      | Some p => resolve p resp (with_inflight (delete id (inflight s)) s)
      | None => s
      end
  | Payload row => on_payload row s
  end.

Definition run (s : State) (events : list Event) : State :=
  fold_left step events s.

(** The store answers the query it was sent: a latest-reading load for
    [c] yields a row of crop [c] (or none). *)
Definition answers (p : Pending) (resp : Response) : Prop :=
  match request p, resp with
  | LoadTelem c, TelemRows (JS.Data (Some row)) => t_crop row = c
  | _, _ => True
  end.

Definition faithful (s : State) (e : Event) : Prop :=
  match e with
  | Resolve id resp =>
      match inflight s !! id with
      | Some p => answers p resp
      | None => True
      end
  | _ => True
  end.

Inductive reachable : State -> Prop :=
| reach_mounted : reachable mounted
| reach_step s e : reachable s -> faithful s e -> reachable (step s e).

(** What the render hands to the two advisory functions. *)
Definition advisory_reading (s : State) : option TelemRow := telem s.

End Machine.

(** The two strings a render shows: [{buildCropReco()}] and
    [{buildAltReco()}] read [telem], [thrMap] and
    [altCropRecommendations] of the current state. *)
Definition advisory (numToString : float -> string) (s : State) : string * string :=
  (buildCropReco numToString (telem s) (thrMap s),
   buildAltReco (telem s) (thrMap s) (altCropRecommendations s)).


End Live.

(** ** pages/Analytics.tsx *)

Module Analytics.

(** A [sens_rdg_30m] row after the numeric conversion of the load. *)
Record HistRow := {
  bkt_30m : string;
  h_crop : Crop;
  h_ph : option float;
  h_moist_pct : option float;
  h_temp_c : option float;
  h_ec_ms : option float;
  h_n_mgkg : option float;
  h_p_mgkg : option float;
  h_k_mgkg : option float
}.

Inductive TimeWin := W24h | W7d | W30d.

#[global] Instance TimeWin_eq_dec : EqDecision TimeWin.
Proof. solve_decision. Defined.

Record SumParam := {
  key : ParamKey;
  label : string;
  unit : string
}.

Definition SUM_PARAMS : list SumParam := [
  {| key := moist_pct; label := "Moisture"; unit := "%" |};
  {| key := temp_c;    label := "Temp";     unit := "°C" |};
  {| key := ec_ms;     label := "EC";       unit := "mS/cm" |};
  {| key := ph;        label := "pH";       unit := "" |};
  {| key := n_mgkg;    label := "N";        unit := "mg/kg" |};
  {| key := p_mgkg;    label := "P";        unit := "mg/kg" |};
  {| key := k_mgkg;    label := "K";        unit := "mg/kg" |}
].

Record SumStat := {
  s_key : string;
  s_label : string;
  s_unit : string;
  min : option float;
  max : option float;
  avg : option float;
  last : option float
}.

(** [r[p.key]] *)
Definition hist_get (r : HistRow) (k : ParamKey) : option float :=
  match k with
  | moist_pct => h_moist_pct r
  | temp_c => h_temp_c r
  | ec_ms => h_ec_ms r
  | ph => h_ph r
  | n_mgkg => h_n_mgkg r
  | p_mgkg => h_p_mgkg r
  | k_mgkg => h_k_mgkg r
  end.

(** [v !== null && !Number.isNaN(v)] *)
Definition is_number (v : option float) : bool :=
  match v with
  | Some x => negb (JS.Number_isNaN x)
  | None => false
  end.

(** The narrowing [(v): v is number] of the values kept by the filter. *)
Definition numbers (l : list (option float)) : list float :=
  flat_map (fun v => match v with Some x => [x] | None => [] end) l.

(** [rows.map(r => r[p.key]).filter(v => v !== null && !Number.isNaN(v))] *)
Definition vals_of (rows : list HistRow) (k : ParamKey) : list float :=
  numbers (List.filter is_number (map (fun r => hist_get r k) rows)).

(** [vals.reduce((acc, v) => acc + v, 0)] *)
Definition sum_of (vals : list float) : float :=
  fold_left PrimFloat.add vals 0%float.

(** The callback of [SUM_PARAMS.map] for a window whose rows are
    [r0 :: rest]. *)
Definition stat (r0 : HistRow) (rest : list HistRow) (p : SumParam) : SumStat :=
  let rows := r0 :: rest in
  let vals := vals_of rows (key p) in
  match vals with
  | [] =>
      {| s_key := key_string (key p); s_label := label p; s_unit := unit p;
         min := None; max := None; avg := None; last := None |}
  | _ =>
      let min := JS.Math_min vals in
      let max := JS.Math_max vals in
      let sum := sum_of vals in
      let avg := PrimFloat.div sum (JS.length_number vals) in
      let lastRaw := hist_get (List.last rows r0) (key p) in   (* rows[rows.length - 1][p.key] *)
      let last := lastRaw in                                   (* typeof lastRaw === 'number' ? lastRaw : null *)
      {| s_key := key_string (key p); s_label := label p; s_unit := unit p;
         min := Some min; max := Some max; avg := Some avg; last := last |}
  end.

Definition stats (rows : list HistRow) : list SumStat :=
  match rows with
  | [] => []                                 (* if (!rows.length) return [] *)
  | r0 :: rest => map (stat r0 rest) SUM_PARAMS
  end.

(** *** The component *)

(** [x !== null ? Number(x) : null] *)
Definition to_number (v : JS.value) : option float :=
  match v with
  | JS.Null => None
  | _ => Some (JS.Number v)
  end.

Definition hist_row (r : Rdg30m) : HistRow :=
  {| bkt_30m := r_bkt_30m r; h_crop := r_crop r;
     h_ph := to_number (r_ph r); h_moist_pct := to_number (r_moist_pct r);
     h_temp_c := to_number (r_temp_c r); h_ec_ms := to_number (r_ec_ms r);
     h_n_mgkg := to_number (r_n_mgkg r); h_p_mgkg := to_number (r_p_mgkg r);
     h_k_mgkg := to_number (r_k_mgkg r) |}.

Record State := {
  crop : Crop;
  win : TimeWin;
  rows : list HistRow;
  loading : bool;
  inflight : gmap nat (Crop * TimeWin);   (* history loads not yet resolved *)
  next_id : nat;
  console : list string
}.

(** The effect with dependencies [[crop, win]] up to its [await]. *)
Definition load_effect (s : State) : State :=
  {| crop := crop s; win := win s; rows := rows s;
     loading := true;
     inflight := <[next_id s := (crop s, win s)]> (inflight s);
     next_id := S (next_id s); console := console s |}.

Definition mounted : State :=
  load_effect {| crop := "pechay"; win := W24h; rows := []; loading := false;
                 inflight := ∅; next_id := 0; console := [] |}.

Definition setCrop (c : Crop) (s : State) : State :=
  if decide (c = crop s) then s
  else load_effect {| crop := c; win := win s; rows := rows s; loading := loading s;
                      inflight := inflight s; next_id := next_id s; console := console s |}.

Definition setWin (w : TimeWin) (s : State) : State :=
  if decide (w = win s) then s
  else load_effect {| crop := crop s; win := w; rows := rows s; loading := loading s;
                      inflight := inflight s; next_id := next_id s; console := console s |}.

(** The effect after its [await]: no originating-crop check, no cleanup. *)
Definition resolve (resp : JS.result (list Rdg30m)) (s : State) : State :=
  match resp with
  | JS.Error e =>
      {| crop := crop s; win := win s; rows := []; loading := false;
         inflight := inflight s; next_id := next_id s;
         console := console s ++ ["err_load_hist " +:+ e] |}
  | JS.Data data =>
      {| crop := crop s; win := win s; rows := map hist_row data; loading := false;
         inflight := inflight s; next_id := next_id s; console := console s |}
  end.

Inductive Event :=
| SelectCrop (c : Crop)
| SelectWin (w : TimeWin)
| Resolve (id : nat) (resp : JS.result (list Rdg30m)).

Definition step (s : State) (e : Event) : State :=
  match e with
  | SelectCrop c => setCrop c s
  | SelectWin w => setWin w s
  | Resolve id resp =>
      match inflight s !! id with
      | Some _ =>
          resolve resp {| crop := crop s; win := win s; rows := rows s; loading := loading s;
                          inflight := delete id (inflight s); next_id := next_id s;
                          console := console s |}
      | None => s
      end
  end.

Definition run (s : State) (events : list Event) : State :=
  fold_left step events s.

(** An element of [graphData]: [s.min ?? 0] and so on. *)
Record GraphPoint := {
  g_label : string;
  g_min : float;
  g_max : float;
  g_avg : float
}.

Definition graphData (stats : list SumStat) : list GraphPoint :=
  map (fun s => {| g_label := s_label s;
                   g_min := default 0%float (min s);
                   g_max := default 0%float (max s);
                   g_avg := default 0%float (avg s) |}) stats.

End Analytics.


(** ** pages/Database.tsx *)

Module Database.

Record SensRow := {
  id : string;
  bkt_30m : option string;
  dev_id : option string;
  crop : option string;
  crop_text : option string;
  device_name : option string;
  src_created_at : option string;
  ph : option float;
  moist_pct : option float;
  temp_c : option float;
  ec_ms : option float;
  n_mgkg : option float;
  p_mgkg : option float;
  k_mgkg : option float
}.

Definition ALLOWED_SORT_COLUMNS : list string :=
  [ "bkt_30m"; "crop_text"; "device_name"; "ph"; "moist_pct"; "temp_c";
    "ec_ms"; "n_mgkg"; "p_mgkg"; "k_mgkg" ].

Inductive TimeFilter := F24h | F7d | F30d.

#[global] Instance TimeFilter_eq_dec : EqDecision TimeFilter.
Proof. solve_decision. Defined.

(** [rowLimit: number | "all"]; the numbers come from the options 10, 20,
    50 and 100 of the select. *)
Inductive RowLimit := All | First (n : N).

#[global] Instance RowLimit_eq_dec : EqDecision RowLimit.
Proof. solve_decision. Defined.

Record SortBy := {
  col : string;
  asc : bool
}.

(** [ALLOWED_SORT_COLUMNS.includes(c) ? c : "bkt_30m"] *)
Definition safe_col (c : string) : string :=
  if JS.includes ALLOWED_SORT_COLUMNS c then c else "bkt_30m".

(** The value [toggleSort(col)] passes to [setSortBy]. *)
Definition toggleSort (c : string) (sortBy : SortBy) : SortBy :=
  let safeCol := safe_col c in
  if String.eqb (col sortBy) safeCol
  then {| col := safeCol; asc := negb (asc sortBy) |}
  else {| col := safeCol; asc := true |}.

(** The calls made on the query builder, in call order. *)
Inductive Clause :=
| Select (count_exact : bool)
| Gte (column value : string)
| Order (column : string) (ascending : bool)
| Ilike (column pattern : string)
| Limit (n : N).

(** A load in flight with the [cancelled] variable of its effect run. *)
Record Pending := {
  query : list Clause;
  cancelled : bool
}.

Record State := {
  rows : list SensRow;
  loading : bool;
  total : option float;
  search : string;
  timeFilter : TimeFilter;
  rowLimit : RowLimit;
  sortBy : SortBy;
  inflight : gmap nat Pending;
  next_id : nat;
  console : list string
}.

Section Page.

(** [s.trim()] and [getTimeThreshold(filter)] at the time of the call. *)
Variable trim : string -> string.
Variable getTimeThreshold : TimeFilter -> string.

(** [if (search.trim().length > 0) query = query.ilike(...)] *)
Definition ilike_clause (search : string) : list Clause :=
  if negb (String.eqb (trim search) "")
  then [Ilike "crop_text" ("%" +:+ trim search +:+ "%")]
  else [].

(** [if (rowLimit !== "all") query = query.limit(rowLimit)] *)
Definition limit_clause (rowLimit : RowLimit) : list Clause :=
  match rowLimit with
  | All => []
  | First n => [Limit n]
  end.

(** The query of [loadRows]. *)
Definition load_query (s : State) : list Clause :=
  ([ Select true;
     Gte "bkt_30m" (getTimeThreshold (timeFilter s));
     Order (safe_col (col (sortBy s))) (asc (sortBy s)) ]
   ++ ilike_clause (search s) ++ limit_clause (rowLimit s))%list.

(** The query of [downloadAllExcel]. *)
Definition export_query (s : State) : list Clause :=
  ([ Select false;
     Gte "bkt_30m" (getTimeThreshold (timeFilter s)) ]
   ++ ilike_clause (search s) ++ limit_clause (rowLimit s)
   ++ [ Order (safe_col (col (sortBy s))) (asc (sortBy s)) ])%list.

(** The effect with dependencies [[search, sortBy, timeFilter, rowLimit]]:
    the cleanup of the previous run, then [loadRows] up to its [await]. *)
Definition load_effect (s : State) : State :=
  {| rows := rows s; loading := true; total := total s;
     search := search s; timeFilter := timeFilter s; rowLimit := rowLimit s;
     sortBy := sortBy s;
     inflight := <[next_id s := {| query := load_query s; cancelled := false |}]>
                   ((fun p => {| query := query p; cancelled := true |}) <$> inflight s);
     next_id := S (next_id s); console := console s |}.

Definition mounted : State :=
  load_effect {| rows := []; loading := false; total := None; search := "";
                 timeFilter := F24h; rowLimit := All;
                 sortBy := {| col := "bkt_30m"; asc := false |};
                 inflight := ∅; next_id := 0; console := [] |}.

Definition setSearch (v : string) (s : State) : State :=
  if decide (v = search s) then s
  else load_effect {| rows := rows s; loading := loading s; total := total s;
                      search := v; timeFilter := timeFilter s; rowLimit := rowLimit s;
                      sortBy := sortBy s; inflight := inflight s; next_id := next_id s;
                      console := console s |}.

Definition setTimeFilter (f : TimeFilter) (s : State) : State :=
  if decide (f = timeFilter s) then s
  else load_effect {| rows := rows s; loading := loading s; total := total s;
                      search := search s; timeFilter := f; rowLimit := rowLimit s;
                      sortBy := sortBy s; inflight := inflight s; next_id := next_id s;
                      console := console s |}.

Definition setRowLimit (l : RowLimit) (s : State) : State :=
  if decide (l = rowLimit s) then s
  else load_effect {| rows := rows s; loading := loading s; total := total s;
                      search := search s; timeFilter := timeFilter s; rowLimit := l;
                      sortBy := sortBy s; inflight := inflight s; next_id := next_id s;
                      console := console s |}.

(** [setSortBy] is always given a fresh object, so the effect runs again. *)
Definition setSortBy (b : SortBy) (s : State) : State :=
  load_effect {| rows := rows s; loading := loading s; total := total s;
                 search := search s; timeFilter := timeFilter s; rowLimit := rowLimit s;
                 sortBy := b; inflight := inflight s; next_id := next_id s;
                 console := console s |}.

(** [loadRows] after its [await]: [res.data], [res.count], [res.error]. *)
Definition resolve (p : Pending) (res : JS.result (option (list SensRow) * option float))
    (s : State) : State :=
  match res with
  | JS.Error e =>
      {| rows := rows s; loading := if cancelled p then loading s else false;
         total := total s; search := search s; timeFilter := timeFilter s;
         rowLimit := rowLimit s; sortBy := sortBy s; inflight := inflight s;
         next_id := next_id s;
         console := console s ++ ["Error loading sens_rdg_with_device: " +:+ e] |}
  | JS.Data (data, count) =>
      if cancelled p then s
      else {| rows := default [] data; loading := false; total := count;
              search := search s; timeFilter := timeFilter s; rowLimit := rowLimit s;
              sortBy := sortBy s; inflight := inflight s; next_id := next_id s;
              console := console s |}
  end.

Inductive Event :=
| Search (v : string)
| PickTime (f : TimeFilter)
| PickLimit (l : RowLimit)
| ClickHeader (c : string)
| Resolve (id : nat) (res : JS.result (option (list SensRow) * option float)).

Definition step (s : State) (e : Event) : State :=
  match e with
  | Search v => setSearch v s
  | PickTime f => setTimeFilter f s
  | PickLimit l => setRowLimit l s
  | ClickHeader c => setSortBy (toggleSort c (sortBy s)) s
  | Resolve id res =>
      match inflight s !! id with
      | Some p =>
          resolve p res
            {| rows := rows s; loading := loading s; total := total s;
               search := search s; timeFilter := timeFilter s; rowLimit := rowLimit s;
               sortBy := sortBy s; inflight := delete id (inflight s);
               next_id := next_id s; console := console s |}
      | None => s
      end
  end.

Inductive reachable : State -> Prop :=
| reach_mounted : reachable mounted
| reach_step s e : reachable s -> reachable (step s e).

End Page.

End Database.

(** ** Sample data *)

Module Sample.

Definition reading (crop upd_at : string) (moist : JS.value) : TelemRow :=
  {| t_dev_id := "dev-1"; t_upd_at := upd_at; t_crop := crop;
     t_ph := JS.Null; t_moist_pct := moist; t_temp_c := JS.Null; t_ec_ms := JS.Null;
     t_n_mgkg := JS.Null; t_p_mgkg := JS.Null; t_k_mgkg := JS.Null |}.

(** A dry reading for pechay: moisture 35. *)
Definition dry : TelemRow := reading "pechay" "2025-01-01T00:00:00Z" (JS.Num 35).

(** The same sensor ten minutes later, as pushed on the channel. *)
Definition pushed : TelemRow := reading "pechay" "2025-01-01T00:10:00Z" (JS.Num 55).

Definition moist_rule (lo hi : float) : Live.ThrRow :=
  {| Live.thr_crop := "pechay"; Live.thr_param := "moist_pct";
     Live.val_min := lo; Live.val_max := hi;
     Live.thr_unit := "%"; Live.descr := Some "Water the bed." |}.

Definition moist_catalog (lo hi : float) : gmap string Live.ThrRow :=
  {[ "moist_pct" := moist_rule lo hi ]}.

(** The first entry of [PARAMS]. *)
Definition moisture : Live.Param :=
  {| Live.key := moist_pct; Live.label := "Moisture"; Live.unit := Some "%";
     Live.icon := "üíß"; Live.short := "MOISTURE" |}.

Definition alt_rules : list Live.AltRec :=
  [ {| Live.soil_param := "Soil Moisture"; Live.reading_range := "<40% (dry)";
       Live.recommended_crop := "Lemongrass" |} ].

Definition bucket (crop bkt : string) (moist : JS.value) : Rdg30m :=
  {| r_bkt_30m := bkt; r_crop := crop;
     r_ph := JS.Null; r_moist_pct := moist; r_temp_c := JS.Null; r_ec_ms := JS.Null;
     r_n_mgkg := JS.Null; r_p_mgkg := JS.Null; r_k_mgkg := JS.Null |}.

Definition hist (moist : option float) : Analytics.HistRow :=
  {| Analytics.bkt_30m := "2025-01-01T00:00:00Z"; Analytics.h_crop := "pechay";
     Analytics.h_ph := None; Analytics.h_moist_pct := moist;
     Analytics.h_temp_c := None; Analytics.h_ec_ms := None;
     Analytics.h_n_mgkg := None; Analytics.h_p_mgkg := None; Analytics.h_k_mgkg := None |}.

(** The date formatting and number printing stand-ins used to run the
    examples; no property below depends on them. *)
Definition toLocaleString (s : string) : string := s.
Definition numToString (x : float) : string := "#".

(** Stand-ins for [trim] and for the clock of [getTimeThreshold]. *)
Definition trim (s : string) : string := s.
Definition getTimeThreshold (f : Database.TimeFilter) : string := "2025-01-01T00:00:00Z".

(** Traces of the live page. Query ids after mounting: 0 device, 1 latest
    reading, 2 thresholds, 3 alternative crops, 4 chart rows. *)

(** The pechay reading is loaded, then the user selects okra. *)
Definition switch_after_snapshot : list Live.Event :=
  [ Live.Resolve 0 (Live.DeviceRow (JS.Data None));
    Live.Resolve 1 (Live.TelemRows (JS.Data (Some dry)));
    Live.Select "okra" ].

(** A payload arrives while the latest-reading load is in flight; the load
    then resolves with the older row. *)
Definition push_before_snapshot : list Live.Event :=
  [ Live.Payload pushed;
    Live.Resolve 1 (Live.TelemRows (JS.Data (Some dry))) ].

Definition pechay_buckets : list Rdg30m :=
  [ bucket "pechay" "2025-01-01T00:00:00Z" (JS.Num 35) ].

Definition okra_buckets : list Rdg30m :=
  [ bucket "okra" "2025-01-01T00:00:00Z" (JS.Num 60) ].

(** The user selects okra (chart load 7 is sent) while the chart load 4 for
    pechay is in flight; load 7 resolves first, load 4 last. *)
Definition slow_chart_load : list Live.Event :=
  [ Live.Resolve 0 (Live.DeviceRow (JS.Data None));
    Live.Select "okra";
    Live.Resolve 7 (Live.ChartRows (JS.Data okra_buckets));
    Live.Resolve 4 (Live.ChartRows (JS.Data pechay_buckets)) ].

(** The same on the analytics page: history load 0 for pechay, load 1 for
    okra. *)
Definition slow_history_load : list Analytics.Event :=
  [ Analytics.SelectCrop "okra";
    Analytics.Resolve 1 (JS.Data okra_buckets);
    Analytics.Resolve 0 (JS.Data pechay_buckets) ].

End Sample.

(** ** Invariant of the live page

    Every latest-reading load in flight whose effect has not been cleaned up
    was sent for the selected crop, and the open channel filters on the
    selected crop. *)

Definition telem_loads_for (c : Crop) (m : gmap nat Live.Pending) : Prop :=
  forall id p c',
    m !! id = Some p -> Live.request p = Live.LoadTelem c' -> Live.cancelled p = false ->
    c' = c.

Definition scoped (s : Live.State) : Prop :=
  Live.channel s = Some (Live.crop s)
  /\ telem_loads_for (Live.crop s) (Live.inflight s).

(** The keys of the three fixed conditions. *)
Definition alt_key (sp rr : string) : Prop :=
  (sp, rr) = ("Soil Moisture", "<40% (dry)")
  \/ (sp, rr) = ("EC", "High EC (>2.0 mS/cm)")
  \/ (sp, rr) = ("Soil Temperature", ">30¬∞ C (hot soil)").


(** The ids of the queries in flight are below the next id to be given. *)
Definition fresh_ids (s : Live.State) : Prop :=
  forall id p, Live.inflight s !! id = Some p -> id < Live.next_id s.

(** ** Invariant of the history log

    Only the load sent last can be live, it carries the query of the current
    settings, the loading flag is up exactly while it is in flight, and the
    sort column is one of the allowed ones. *)
Definition latest_only (trim : string -> string)
    (getTimeThreshold : Database.TimeFilter -> string) (s : Database.State) : Prop :=
  (forall id p,
     Database.inflight s !! id = Some p -> Database.cancelled p = false ->
     S id = Database.next_id s
     /\ Database.query p = Database.load_query trim getTimeThreshold s)
  /\ (Database.loading s = true <->
        exists p, Database.inflight s !! pred (Database.next_id s) = Some p
                  /\ Database.cancelled p = false)
  /\ In (Database.col (Database.sortBy s)) Database.ALLOWED_SORT_COLUMNS.

(** ** The order of binary64 values

    [SFcompare] on two values other than NaN is the lexicographic comparison
    of their ranks: class (-inf, negative, zero, positive, +inf), then
    exponent, then mantissa, the last two negated for negative values. *)

Definition rank (f : spec_float) : Z * Z * Z :=
  match f with
  | S754_nan => (0, 0, 0)%Z
  | S754_infinity true => (-2, 0, 0)%Z
  | S754_infinity false => (2, 0, 0)%Z
  | S754_zero _ => (0, 0, 0)%Z
  | S754_finite true m e => (-1, - e, Z.neg m)%Z
  | S754_finite false m e => (1, e, Z.pos m)%Z
  end.

Definition lex3 (a b : Z * Z * Z) : comparison :=
  let '(a1, a2, a3) := a in
  let '(b1, b2, b3) := b in
  match (a1 ?= b1)%Z with
  | Eq => match (a2 ?= b2)%Z with
          | Eq => (a3 ?= b3)%Z
          | c => c
          end
  | c => c
  end.

Definition lt3 (a b : Z * Z * Z) : Prop :=
  let '(a1, a2, a3) := a in
  let '(b1, b2, b3) := b in
  (a1 < b1 \/ (a1 = b1 /\ (a2 < b2 \/ (a2 = b2 /\ a3 < b3))))%Z.

Definition frank (x : float) : Z * Z * Z := rank (Prim2SF x).
Definition is_num (x : float) : Prop := PrimFloat.is_nan x = false.

(** * Properties *)

(** ** Comparisons of numbers *)

Lemma SFcompare_rank f1 f2 :
  f1 <> S754_nan -> f2 <> S754_nan ->
  SFcompare f1 f2 = Some (lex3 (rank f1) (rank f2)).
Proof.
  intros H1 H2.
  destruct f1 as [s1|s1| |s1 m1 e1], f2 as [s2|s2| |s2 m2 e2];
    try congruence; try destruct s1; try destruct s2; try reflexivity.
  cbn [SFcompare rank lex3]. cbn [Z.compare].
  rewrite Z.compare_opp, (Z.compare_antisym e1 e2).
    destruct (e1 ?= e2)%Z; cbn; try reflexivity.
Qed.

Lemma lex3_Lt a b : lex3 a b = Lt <-> lt3 a b.
Proof.
  destruct a as [[a1 a2] a3], b as [[b1 b2] b3]; unfold lex3, lt3.
  destruct (Z.compare_spec a1 b1), (Z.compare_spec a2 b2), (Z.compare_spec a3 b3);
    split; intros; try discriminate; try reflexivity; try lia.
Qed.

Lemma lex3_Gt a b : lex3 a b = Gt <-> lt3 b a.
Proof.
  destruct a as [[a1 a2] a3], b as [[b1 b2] b3]; unfold lex3, lt3.
  destruct (Z.compare_spec a1 b1), (Z.compare_spec a2 b2), (Z.compare_spec a3 b3);
    split; intros; try discriminate; try reflexivity; try lia.
Qed.

Lemma lex3_Eq a b : lex3 a b = Eq <-> a = b.
Proof.
  destruct a as [[a1 a2] a3], b as [[b1 b2] b3]; unfold lex3.
  destruct (Z.compare_spec a1 b1), (Z.compare_spec a2 b2), (Z.compare_spec a3 b3);
    split; intros; try discriminate; try reflexivity; try (f_equal; lia); try (inversion H2; lia).
  all: try congruence.
Qed.

Lemma is_nan_false x : PrimFloat.is_nan x = false <-> Prim2SF x <> S754_nan.
Proof.
  unfold PrimFloat.is_nan. rewrite FloatAxioms.eqb_spec. unfold SFeqb.
  destruct (Prim2SF x) as [s|s| |s m e] eqn:E.
  - destruct s; cbn; split; congruence.
  - destruct s; cbn; split; congruence.
  - cbn. split; congruence.
  - rewrite SFcompare_rank by congruence.
    assert (lex3 (rank (S754_finite s m e)) (rank (S754_finite s m e)) = Eq) as -> by (now apply lex3_Eq).
    cbn; split; congruence.
Qed.

Lemma SFcompare_None f1 f2 :
  SFcompare f1 f2 = None <-> f1 = S754_nan \/ f2 = S754_nan.
Proof.
  split.
  - intros H. destruct f1 as [s1|s1| |s1 m1 e1]; [| |now left|];
      (destruct f2 as [s2|s2| |s2 m2 e2]; [| |now right|]); discriminate.
  - intros [->| ->]; [reflexivity|]. now destruct f1.
Qed.

Lemma fcompare_num x y :
  is_num x -> is_num y ->
  SFcompare (Prim2SF x) (Prim2SF y) = Some (lex3 (frank x) (frank y)).
Proof.
  intros Hx Hy. apply SFcompare_rank; now apply is_nan_false.
Qed.

Lemma fcompare_some x y c :
  SFcompare (Prim2SF x) (Prim2SF y) = Some c -> is_num x /\ is_num y.
Proof.
  intros H. split; apply is_nan_false; intros E; rewrite E in H;
    [|destruct (Prim2SF x)]; discriminate.
Qed.

Lemma ltb_true x y :
  PrimFloat.ltb x y = true <-> is_num x /\ is_num y /\ lt3 (frank x) (frank y).
Proof.
  rewrite ltb_spec. unfold SFltb. split.
  - destruct (SFcompare (Prim2SF x) (Prim2SF y)) as [c|] eqn:E; [|discriminate].
    destruct (fcompare_some _ _ _ E) as [Hx Hy].
    rewrite fcompare_num in E by assumption. injection E as <-.
    intros H. repeat split; try assumption. apply lex3_Lt.
    now destruct (lex3 (frank x) (frank y)).
  - intros (Hx & Hy & H). rewrite fcompare_num by assumption.
    apply lex3_Lt in H. now rewrite H.
Qed.


Lemma lt3_irrefl a : ~ lt3 a a.
Proof. destruct a as [[a1 a2] a3]; unfold lt3; lia. Qed.

Lemma lt3_trans a b c : lt3 a b -> lt3 b c -> lt3 a c.
Proof.
  destruct a as [[a1 a2] a3], b as [[b1 b2] b3], c as [[c1 c2] c3]; unfold lt3; lia.
Qed.

Lemma lt3_le_trans a b c : lt3 a b -> ~ lt3 c b -> lt3 a c.
Proof.
  destruct a as [[a1 a2] a3], b as [[b1 b2] b3], c as [[c1 c2] c3]; unfold lt3; lia.
Qed.

Lemma le3_trans a b c : ~ lt3 b a -> ~ lt3 c b -> ~ lt3 c a.
Proof.
  destruct a as [[a1 a2] a3], b as [[b1 b2] b3], c as [[c1 c2] c3]; unfold lt3; lia.
Qed.

Lemma leb_true x y :
  PrimFloat.leb x y = true <-> is_num x /\ is_num y /\ ~ lt3 (frank y) (frank x).
Proof.
  rewrite leb_spec. unfold SFleb. split.
  - destruct (SFcompare (Prim2SF x) (Prim2SF y)) as [c|] eqn:E; [|discriminate].
    destruct (fcompare_some _ _ _ E) as [Hx Hy].
    rewrite fcompare_num in E by assumption. injection E as <-.
    intros H. repeat split; try assumption. rewrite <- lex3_Gt.
    now destruct (lex3 (frank x) (frank y)).
  - intros (Hx & Hy & H). rewrite fcompare_num by assumption.
    rewrite <- lex3_Gt in H. now destruct (lex3 (frank x) (frank y)).
Qed.

Lemma eqb_true x y :
  PrimFloat.eqb x y = true <-> is_num x /\ is_num y /\ frank x = frank y.
Proof.
  rewrite FloatAxioms.eqb_spec. unfold SFeqb. split.
  - destruct (SFcompare (Prim2SF x) (Prim2SF y)) as [c|] eqn:E; [|discriminate].
    destruct (fcompare_some _ _ _ E) as [Hx Hy].
    rewrite fcompare_num in E by assumption. injection E as <-.
    intros H. repeat split; try assumption. apply lex3_Eq.
    now destruct (lex3 (frank x) (frank y)).
  - intros (Hx & Hy & H). rewrite fcompare_num by assumption.
    apply lex3_Eq in H. now rewrite H.
Qed.

Lemma ltb_false x y :
  is_num x -> is_num y ->
  PrimFloat.ltb x y = false <-> ~ lt3 (frank x) (frank y).
Proof.
  intros Hx Hy. rewrite <- not_true_iff_false, ltb_true. tauto.
Qed.

Lemma frank_infinity x :
  is_num x -> ~ lt3 (frank x) (frank infinity) -> x = infinity.
Proof.
  intros Hx H. apply Prim2SF_inj. apply is_nan_false in Hx.
  unfold frank in H. change (Prim2SF infinity) with (S754_infinity false) in *.
  destruct (Prim2SF x) as [s|[]| |[] m e]; try congruence; exfalso; apply H; cbn; lia.
Qed.

Lemma frank_neg_infinity x :
  is_num x -> ~ lt3 (frank neg_infinity) (frank x) -> x = neg_infinity.
Proof.
  intros Hx H. apply Prim2SF_inj. apply is_nan_false in Hx.
  unfold frank in H. change (Prim2SF neg_infinity) with (S754_infinity true) in *.
  destruct (Prim2SF x) as [s|[]| |[] m e]; try congruence; exfalso; apply H; cbn; lia.
Qed.

Lemma is_zero_rank x : PrimFloat.is_zero x = true -> is_num x /\ frank x = (0, 0, 0)%Z.
Proof.
  unfold is_zero. rewrite eqb_true. intros (Hx & _ & H). split; [assumption|].
  rewrite H. reflexivity.
Qed.

#[local] Hint Resolve lt3_irrefl : core.

Lemma Forall_is_num_existsb (l : list float) :
  Forall is_num l -> existsb PrimFloat.is_nan l = false.
Proof.
  induction 1 as [|x l Hx _ IH]; [reflexivity|].
  cbn. now rewrite Hx, IH.
Qed.

(** ** [Math.min] and [Math.max] on numbers other than NaN *)

Lemma min_step_cases (lowest n : float) :
  is_num lowest -> is_num n ->
  let m := JS.min_step lowest n in
  (m = lowest \/ m = n) /\ PrimFloat.leb m lowest = true /\ PrimFloat.leb m n = true.
Proof.
  intros Hl Hn. unfold JS.min_step.
  destruct (JS.is_neg_zero n && JS.is_pos_zero lowest) eqn:Hz.
  - apply andb_true_iff in Hz as [Hz1 Hz2].
    apply andb_true_iff in Hz1 as [Hz1 _]. apply andb_true_iff in Hz2 as [Hz2 _].
    apply is_zero_rank in Hz1 as [_ R1]. apply is_zero_rank in Hz2 as [_ R2].
    cbn. split; [now right|]. rewrite !leb_true, R1, R2.
    repeat split; auto.
  - destruct (PrimFloat.ltb n lowest) eqn:Hlt; cbn.
    + apply ltb_true in Hlt as (_ & _ & Hlt).
      split; [now right|]. rewrite !leb_true. repeat split; auto.
      intros H. exact (lt3_irrefl _ (lt3_trans _ _ _ Hlt H)).
    + apply ltb_false in Hlt; [|assumption..].
      split; [now left|]. rewrite !leb_true. repeat split; auto.
Qed.

Lemma leb_trans (x y z : float) :
  PrimFloat.leb x y = true -> PrimFloat.leb y z = true -> PrimFloat.leb x z = true.
Proof.
  rewrite !leb_true. intros (Hx & Hy & H1) (_ & Hz & H2).
  repeat split; try assumption. eapply le3_trans; eassumption.
Qed.

Lemma leb_is_num_l (x y : float) : PrimFloat.leb x y = true -> is_num x.
Proof. rewrite leb_true. tauto. Qed.

Lemma fold_min_step (l : list float) (lowest : float) :
  is_num lowest -> Forall is_num l ->
  let m := fold_left JS.min_step l lowest in
  (m = lowest \/ In m l) /\ PrimFloat.leb m lowest = true
  /\ Forall (fun x => PrimFloat.leb m x = true) l.
Proof.
  intros Hl Hall. revert lowest Hl.
  induction Hall as [|n l Hn _ IH]; intros lowest Hl; cbn.
  - repeat split; [now left| |constructor].
    apply leb_true. repeat split; auto.
  - destruct (min_step_cases lowest n Hl Hn) as (Hm & Hml & Hmn).
    specialize (IH (JS.min_step lowest n) (leb_is_num_l _ _ Hml)).
    cbn in IH. destruct IH as (Hin & Hle & Hfa).
    repeat split.
    + destruct Hin as [->|Hin]; [|now right; right].
      destruct Hm as [->| ->]; [now left|now right; left].
    + eapply leb_trans; eassumption.
    + constructor; [eapply leb_trans; eassumption|assumption].
Qed.

Lemma min_step_infinity (n : float) : is_num n -> JS.min_step infinity n = n.
Proof.
  intros Hn. unfold JS.min_step.
  replace (JS.is_pos_zero infinity) with false by reflexivity.
  rewrite andb_false_r.
  destruct (PrimFloat.ltb n infinity) eqn:Hlt; [reflexivity|].
  apply ltb_false in Hlt; [|assumption|reflexivity].
  symmetry. now apply frank_infinity.
Qed.

Lemma Math_min_spec (l : list float) :
  l <> [] -> Forall is_num l ->
  In (JS.Math_min l) l /\ Forall (fun x => PrimFloat.leb (JS.Math_min l) x = true) l.
Proof.
  intros Hne Hall. unfold JS.Math_min.
  rewrite Forall_is_num_existsb by assumption.
  destruct l as [|n l]; [congruence|]. inversion Hall as [|? ? Hn Hl]; subst.
  cbn [fold_left]. rewrite min_step_infinity by assumption.
  destruct (fold_min_step l n Hn Hl) as (Hin & Hle & Hfa).
  split.
  - destruct Hin as [->|Hin]; [now left|now right].
  - constructor; assumption.
Qed.

Lemma max_step_cases (highest n : float) :
  is_num highest -> is_num n ->
  let m := JS.max_step highest n in
  (m = highest \/ m = n) /\ PrimFloat.leb highest m = true /\ PrimFloat.leb n m = true.
Proof.
  intros Hl Hn. unfold JS.max_step.
  destruct (JS.is_pos_zero n && JS.is_neg_zero highest) eqn:Hz.
  - apply andb_true_iff in Hz as [Hz1 Hz2].
    apply andb_true_iff in Hz1 as [Hz1 _]. apply andb_true_iff in Hz2 as [Hz2 _].
    apply is_zero_rank in Hz1 as [_ R1]. apply is_zero_rank in Hz2 as [_ R2].
    cbn. split; [now right|]. rewrite !leb_true, R1, R2.
    repeat split; auto.
  - destruct (PrimFloat.ltb highest n) eqn:Hlt; cbn.
    + apply ltb_true in Hlt as (_ & _ & Hlt).
      split; [now right|]. rewrite !leb_true. repeat split; auto.
      intros H. exact (lt3_irrefl _ (lt3_trans _ _ _ Hlt H)).
    + apply ltb_false in Hlt; [|assumption..].
      split; [now left|]. rewrite !leb_true. repeat split; auto.
Qed.

Lemma leb_is_num_r (x y : float) : PrimFloat.leb x y = true -> is_num y.
Proof. rewrite leb_true. tauto. Qed.

Lemma fold_max_step (l : list float) (highest : float) :
  is_num highest -> Forall is_num l ->
  let m := fold_left JS.max_step l highest in
  (m = highest \/ In m l) /\ PrimFloat.leb highest m = true
  /\ Forall (fun x => PrimFloat.leb x m = true) l.
Proof.
  intros Hl Hall. revert highest Hl.
  induction Hall as [|n l Hn _ IH]; intros highest Hl; cbn.
  - repeat split; [now left| |constructor].
    apply leb_true. repeat split; auto.
  - destruct (max_step_cases highest n Hl Hn) as (Hm & Hml & Hmn).
    specialize (IH (JS.max_step highest n) (leb_is_num_r _ _ Hml)).
    cbn in IH. destruct IH as (Hin & Hle & Hfa).
    repeat split.
    + destruct Hin as [->|Hin]; [|now right; right].
      destruct Hm as [->| ->]; [now left|now right; left].
    + eapply leb_trans; eassumption.
    + constructor; [eapply leb_trans; eassumption|assumption].
Qed.

Lemma max_step_neg_infinity (n : float) : is_num n -> JS.max_step neg_infinity n = n.
Proof.
  intros Hn. unfold JS.max_step.
  replace (JS.is_neg_zero neg_infinity) with false by reflexivity.
  rewrite andb_false_r.
  destruct (PrimFloat.ltb neg_infinity n) eqn:Hlt; [reflexivity|].
  apply ltb_false in Hlt; [|reflexivity|assumption].
  symmetry. now apply frank_neg_infinity.
Qed.

Lemma Math_max_spec (l : list float) :
  l <> [] -> Forall is_num l ->
  In (JS.Math_max l) l /\ Forall (fun x => PrimFloat.leb x (JS.Math_max l) = true) l.
Proof.
  intros Hne Hall. unfold JS.Math_max.
  rewrite Forall_is_num_existsb by assumption.
  destruct l as [|n l]; [congruence|]. inversion Hall as [|? ? Hn Hl]; subst.
  cbn [fold_left]. rewrite max_step_neg_infinity by assumption.
  destruct (fold_max_step l n Hn Hl) as (Hin & Hle & Hfa).
  split.
  - destruct Hin as [->|Hin]; [now left|now right].
  - constructor; assumption.
Qed.

(** ** The crop-treatment advisory *)

Lemma ltb_leb_ltb_cycle (v lo hi : float) :
  PrimFloat.ltb v lo = true -> PrimFloat.leb lo hi = true -> PrimFloat.ltb hi v = true -> False.
Proof.
  rewrite !ltb_true, leb_true. intros (_ & _ & H1) (_ & _ & H2) (_ & _ & H3).
  apply (lt3_irrefl (frank v)). eapply lt3_trans; [|exact H3].
  eapply lt3_le_trans; eassumption.
Qed.

Lemma classify_cases (v : float) (t : Live.ThrRow) :
  (Live.classify v t = Live.LOW /\ PrimFloat.ltb v (Live.val_min t) = true)
  \/ (Live.classify v t = Live.HIGH /\ PrimFloat.ltb v (Live.val_min t) = false
      /\ PrimFloat.ltb (Live.val_max t) v = true)
  \/ (Live.classify v t = Live.OK /\ PrimFloat.ltb v (Live.val_min t) = false
      /\ PrimFloat.ltb (Live.val_max t) v = false).
Proof.
  unfold Live.classify.
  destruct (PrimFloat.ltb v (Live.val_min t)); [now left|].
  destruct (PrimFloat.ltb (Live.val_max t) v); [right; left|right; right]; auto.
Qed.

(** C1. For a rule with [val_min <= val_max], the branch taken for a value
    is LOW exactly when the value is below [val_min], HIGH exactly when it is
    above [val_max], and OK in every other case; for a number that is the
    inclusive range [val_min <= v <= val_max], so a value equal to either
    bound is OK; and the parameter gets an advisory line exactly when the
    branch is not OK. *)
Theorem classify_inclusive (v : float) (t : Live.ThrRow)
    (Hrange : PrimFloat.leb (Live.val_min t) (Live.val_max t) = true) :
  (Live.classify v t = Live.LOW <-> PrimFloat.ltb v (Live.val_min t) = true)
  /\ (Live.classify v t = Live.HIGH <-> PrimFloat.ltb (Live.val_max t) v = true)
  /\ (Live.classify v t = Live.OK <->
        PrimFloat.ltb v (Live.val_min t) = false /\ PrimFloat.ltb (Live.val_max t) v = false)
  /\ (is_num v ->
        (Live.classify v t = Live.OK <->
           PrimFloat.leb (Live.val_min t) v = true /\ PrimFloat.leb v (Live.val_max t) = true))
  /\ (PrimFloat.eqb v (Live.val_min t) = true -> Live.classify v t = Live.OK)
  /\ (PrimFloat.eqb v (Live.val_max t) = true -> Live.classify v t = Live.OK)
  /\ (forall numToString telem (thrMap : gmap string Live.ThrRow) p,
        telem_get telem (Live.key p) = JS.Num v ->
        is_num v ->
        thrMap !! key_string (Live.key p) = Some t ->
        (Live.crop_issue numToString telem thrMap p = None <-> Live.classify v t = Live.OK)).
Proof.
  assert (Hlo : is_num (Live.val_min t)) by (apply leb_true in Hrange; tauto).
  assert (Hhi : is_num (Live.val_max t)) by (apply leb_true in Hrange; tauto).
  assert (Hle : ~ lt3 (frank (Live.val_max t)) (frank (Live.val_min t)))
    by (apply leb_true in Hrange; tauto).
  assert (Hok : Live.classify v t = Live.OK <->
            PrimFloat.ltb v (Live.val_min t) = false
            /\ PrimFloat.ltb (Live.val_max t) v = false).
  { destruct (classify_cases v t) as [[E H]|[(E & H1 & H2)|(E & H1 & H2)]];
      rewrite E; split; try tauto; try discriminate; intros [? ?]; congruence. }
  split; [|split; [|split; [|split; [|split; [|split]]]]].
  - destruct (classify_cases v t) as [[E H]|[(E & H1 & H2)|(E & H1 & H2)]];
      rewrite E; split; try tauto; try discriminate; congruence.
  - destruct (classify_cases v t) as [[E H]|[(E & H1 & H2)|(E & H1 & H2)]];
      rewrite E; split; try tauto; try discriminate; try congruence.
    intros H3. exfalso. exact (ltb_leb_ltb_cycle _ _ _ H Hrange H3).
  - exact Hok.
  - intros Hv. rewrite Hok, !ltb_false, !leb_true by assumption. tauto.
  - intros Heq. apply eqb_true in Heq as (Hv & _ & Heq).
    apply Hok. rewrite !ltb_false by assumption. rewrite Heq. split; auto.
  - intros Heq. apply eqb_true in Heq as (Hv & _ & Heq).
    apply Hok. rewrite !ltb_false by assumption. rewrite Heq. split; auto.
  - intros numToString telem thrMap p Hget Hv Hthr.
    unfold Live.crop_issue. rewrite Hget. cbn [Live.numVal_of].
    unfold JS.Number_isNaN. rewrite Hv, Hthr.
    destruct (Live.classify v t); split; intros; congruence.
Qed.

(** The moisture rule 40..70: the value 40 is OK. *)
Lemma classify_inclusive_witness :
  Live.classify 40 (Sample.moist_rule 40 70) = Live.OK.
Proof.
  destruct (classify_inclusive 40 (Sample.moist_rule 40 70) eq_refl)
    as (_ & _ & _ & _ & Hmin & _).
  apply Hmin. reflexivity.
Defined.

Lemma fold_left_skip {A B} (f : A -> B -> A) (keep : B -> bool) (l : list B) (a : A) :
  (forall a b, keep b = false -> f a b = a) ->
  fold_left f l a = fold_left f (List.filter keep l) a.
Proof.
  intros Hskip. revert a. induction l as [|b l IH]; intros a; cbn; [reflexivity|].
  destruct (keep b) eqn:Hb; cbn.
  - apply IH.
  - rewrite Hskip by assumption. apply IH.
Qed.

Lemma fold_left_ext_all {A B} (f g : A -> B -> A) (l : list B) (a : A) :
  (forall a b, f a b = g a b) -> fold_left f l a = fold_left g l a.
Proof.
  intros Hfg. revert a. induction l as [|b l IH]; intros a; cbn; [reflexivity|].
  rewrite Hfg. apply IH.
Qed.

Lemma other_key_false (k : ParamKey) (q : Live.Param) :
  negb (bool_decide (Live.key q = k)) = false -> Live.key q = k.
Proof.
  intros H. apply negb_false_iff in H. now apply bool_decide_eq_true in H.
Qed.

(** C7. A parameter whose value in the reading is null or undefined, or for
    which the threshold map has no rule, yields no advisory line and leaves
    the list of recommended crops as it is: both loops give the result they
    give on the parameter table without that parameter. *)
Theorem skip_without_value_or_rule
    (numToString : float -> string) (telem : TelemRow)
    (thrMap : gmap string Live.ThrRow) (alts : list Live.AltRec) (p : Live.Param)
    (Hskip : telem_get telem (Live.key p) = JS.Null
             \/ telem_get telem (Live.key p) = JS.Undefined
             \/ thrMap !! key_string (Live.key p) = None) :
  let others := List.filter (fun q => negb (bool_decide (Live.key q = Live.key p))) Live.PARAMS in
  Live.crop_issue numToString telem thrMap p = None
  /\ (forall issues, Live.push_issue numToString telem thrMap issues p = issues)
  /\ (forall recommendedCrops,
        Live.alt_step telem thrMap alts recommendedCrops p = recommendedCrops)
  /\ Live.crop_issues numToString Live.PARAMS telem thrMap
      = Live.crop_issues numToString others telem thrMap
  /\ Live.alt_crops Live.PARAMS telem thrMap alts = Live.alt_crops others telem thrMap alts.
Proof.
  assert (Hissue : forall q, Live.key q = Live.key p ->
            Live.crop_issue numToString telem thrMap q = None).
  { intros q Hq. unfold Live.crop_issue. rewrite Hq.
    destruct Hskip as [H|[H|H]]; rewrite H; cbn; try reflexivity.
    destruct (Live.numVal_of _); [|reflexivity].
    now destruct (JS.Number_isNaN _). }
  assert (Halt : forall q rc, Live.key q = Live.key p ->
            Live.alt_step telem thrMap alts rc q = rc).
  { intros q rc Hq. unfold Live.alt_step. rewrite Hq.
    destruct Hskip as [H|[H|H]]; rewrite H; cbn; try reflexivity.
    destruct (Live.numVal_of _); [|reflexivity].
    now destruct (JS.Number_isNaN _). }
  assert (Hpush : forall q issues, Live.key q = Live.key p ->
            Live.push_issue numToString telem thrMap issues q = issues).
  { intros q issues Hq. unfold Live.push_issue. now rewrite Hissue. }
  assert (Hissues : Live.crop_issues numToString Live.PARAMS telem thrMap
            = Live.crop_issues numToString
                (List.filter (fun q => negb (bool_decide (Live.key q = Live.key p))) Live.PARAMS)
                telem thrMap).
  { unfold Live.crop_issues. apply fold_left_skip.
    intros a b Hb. apply Hpush. now apply other_key_false. }
  cbv zeta. repeat split.
  - now apply Hissue.
  - intros issues. now apply Hpush.
  - intros rc. now apply Halt.
  - exact Hissues.
  - unfold Live.alt_crops. apply fold_left_skip.
    intros a b Hb. apply Halt. now apply other_key_false.
Qed.

(** The empty threshold map has no moisture rule. *)
Lemma skip_without_value_or_rule_witness :
  Live.crop_issue Sample.numToString Sample.dry ∅ Sample.moisture = None.
Proof.
  refine (proj1 (skip_without_value_or_rule Sample.numToString Sample.dry ∅ Sample.alt_rules
                   Sample.moisture _)).
  right; right. reflexivity.
Defined.

(** ** The alternative-crop suggestion *)

(** C6, as stated, fails: with the same dry reading and the same rule table,
    the moisture check contributes Lemongrass when the threshold map has a
    moisture rule and nothing when it has none. *)
Lemma alt_reco_depends_on_catalog :
  Live.alt_crops Live.PARAMS Sample.dry ∅ Sample.alt_rules = []
  /\ Live.alt_crops Live.PARAMS Sample.dry (Sample.moist_catalog 40 70) Sample.alt_rules
     = ["Lemongrass"]
  /\ Live.buildAltReco (Some Sample.dry) ∅ Sample.alt_rules
     <> Live.buildAltReco (Some Sample.dry) (Sample.moist_catalog 40 70) Sample.alt_rules.
Proof.
  split; [|split].
  - vm_compute. reflexivity.
  - vm_compute. reflexivity.
  - vm_compute. discriminate.
Qed.

(** C6, amended. The three checks read the threshold map only to see
    whether the parameter has a rule; the rule itself (bounds, unit,
    description) is never consulted. Two maps with rules for the same
    parameters give the same suggestion for every reading and rule table,
    and a parameter without a rule contributes nothing. *)
Theorem alt_reco_only_rule_presence
    (telem : option TelemRow) (thrMap1 thrMap2 : gmap string Live.ThrRow)
    (alts : list Live.AltRec)
    (Hsame : forall k, thrMap1 !! key_string k = None <-> thrMap2 !! key_string k = None) :
  Live.buildAltReco telem thrMap1 alts = Live.buildAltReco telem thrMap2 alts
  /\ (forall row, telem = Some row ->
        Live.alt_crops Live.PARAMS row thrMap1 alts
        = Live.alt_crops Live.PARAMS row thrMap2 alts)
  /\ (forall row p recommendedCrops,
        thrMap1 !! key_string (Live.key p) = None ->
        Live.alt_step row thrMap1 alts recommendedCrops p = recommendedCrops
        /\ Live.alt_step row thrMap2 alts recommendedCrops p = recommendedCrops).
Proof.
  assert (Hcrops : forall row, Live.alt_crops Live.PARAMS row thrMap1 alts
            = Live.alt_crops Live.PARAMS row thrMap2 alts).
  { intros row. unfold Live.alt_crops. apply fold_left_ext_all. intros rc p.
    unfold Live.alt_step.
    destruct (Live.numVal_of _) as [numVal|]; [|reflexivity].
    destruct (JS.Number_isNaN numVal); [reflexivity|].
    specialize (Hsame (Live.key p)).
    destruct (thrMap1 !! key_string (Live.key p)) as [t1|] eqn:E1,
             (thrMap2 !! key_string (Live.key p)) as [t2|] eqn:E2;
      try reflexivity; exfalso.
    - destruct Hsame as [_ H]. specialize (H eq_refl). discriminate.
    - destruct Hsame as [H _]. specialize (H eq_refl). discriminate. }
  split; [|split].
  - destruct telem as [row|]; [|reflexivity].
    cbn [Live.buildAltReco]. now rewrite Hcrops.
  - intros row _. apply Hcrops.
  - intros row p rc H1. pose proof (proj1 (Hsame (Live.key p)) H1) as H2.
    unfold Live.alt_step. rewrite H1, H2.
    destruct (Live.numVal_of _) as [numVal|]; [|now split].
    destruct (JS.Number_isNaN numVal); now split.
Qed.

(** Moisture rules 40..70 and 10..20 give the same suggestion. *)
Lemma alt_reco_only_rule_presence_witness :
  Live.buildAltReco (Some Sample.dry) (Sample.moist_catalog 40 70) Sample.alt_rules
  = Live.buildAltReco (Some Sample.dry) (Sample.moist_catalog 10 20) Sample.alt_rules.
Proof.
  apply (alt_reco_only_rule_presence (Some Sample.dry)
           (Sample.moist_catalog 40 70) (Sample.moist_catalog 10 20) Sample.alt_rules).
  intros k. destruct k; vm_compute; split; intros H; solve [exact H | discriminate H].
Defined.

(** C9. The two advisory strings of a render are a function of the current
    reading, the threshold map and the alternative-crop table alone: two
    states of the page that agree on these three show the same strings,
    whatever their crop, device, chart data or pending queries. *)
Theorem advisory_deterministic
    (numToString : float -> string) (s1 s2 : Live.State)
    (Htelem : Live.telem s1 = Live.telem s2)
    (Hthr : Live.thrMap s1 = Live.thrMap s2)
    (Halt : Live.altCropRecommendations s1 = Live.altCropRecommendations s2) :
  Live.advisory numToString s1 = Live.advisory numToString s2
  /\ Live.buildCropReco numToString (Live.telem s1) (Live.thrMap s1)
     = Live.buildCropReco numToString (Live.telem s2) (Live.thrMap s2)
  /\ Live.buildAltReco (Live.telem s1) (Live.thrMap s1) (Live.altCropRecommendations s1)
     = Live.buildAltReco (Live.telem s2) (Live.thrMap s2) (Live.altCropRecommendations s2).
Proof.
  unfold Live.advisory. rewrite Htelem, Hthr, Halt. repeat split.
Qed.

(** The mounted page before and after it selects another crop. *)
Lemma advisory_deterministic_witness :
  Live.advisory Sample.numToString Live.mounted
  = Live.advisory Sample.numToString (Live.setCrop "okra" Live.mounted).
Proof.
  apply (advisory_deterministic Sample.numToString Live.mounted
           (Live.setCrop "okra" Live.mounted)); reflexivity.
Defined.

(** ** Selecting a crop *)

Lemma setCrop_crop (c : Crop) (s : Live.State) : Live.crop (Live.setCrop c s) = c.
Proof.
  unfold Live.setCrop. destruct (decide (c = Live.crop s)) as [->|_]; reflexivity.
Qed.

Lemma setCrop_dev (c : Crop) (s : Live.State) : Live.dev (Live.setCrop c s) = Live.dev s.
Proof.
  unfold Live.setCrop. destruct (decide (c = Live.crop s)); reflexivity.
Qed.

Lemma setCrop_telem (c : Crop) (s : Live.State) : Live.telem (Live.setCrop c s) = Live.telem s.
Proof.
  unfold Live.setCrop. destruct (decide (c = Live.crop s)); reflexivity.
Qed.

Lemma handleCropChange_crop (c : Crop) (s : Live.State) :
  Live.crop (Live.handleCropChange c s) = c.
Proof.
  unfold Live.handleCropChange.
  destruct (Live.dev (Live.setCrop c s)); cbn; apply setCrop_crop.
Qed.

(** C8. [handleCropChange] sets the selection first and only then, if a
    device is known, sends the update of [cur_crop]; when that update
    resolves, with or without an error, the selection is left as it is: an
    error is appended to the console and nothing is rolled back. *)
Theorem handleCropChange_no_rollback
    (toLocaleString : string -> string) (s : Live.State) (c : Crop) :
  Live.crop (Live.setCrop c s) = c
  /\ Live.handleCropChange c s
     = match Live.dev s with
       | None => Live.setCrop c s
       | Some d => Live.issue (Live.UpdateCurCrop (dev_id_ d) c) (Live.setCrop c s)
       end
  /\ Live.crop (Live.handleCropChange c s) = c
  /\ (forall err,
        match Live.dev s with
        | None => True
        | Some d =>
            let s1 := Live.handleCropChange c s in
            let id := Live.next_id (Live.setCrop c s) in
            let s2 := Live.step toLocaleString s1 (Live.Resolve id (Live.Updated err)) in
            Live.inflight s1 !! id
              = Some {| Live.request := Live.UpdateCurCrop (dev_id_ d) c;
                        Live.cancelled := false |}
            /\ Live.crop s2 = c
            /\ Live.console s2
               = match err with
                 | Some e => (Live.console s1 ++ ["Error updating cur_crop: " +:+ e])%list
                 | None => Live.console s1
                 end
        end)
  /\ (forall dv c' b err s',
        Live.crop (Live.resolve toLocaleString
                     {| Live.request := Live.UpdateCurCrop dv c'; Live.cancelled := b |}
                     (Live.Updated err) s') = Live.crop s').
Proof.
  assert (Hh : Live.handleCropChange c s
            = match Live.dev s with
              | None => Live.setCrop c s
              | Some d => Live.issue (Live.UpdateCurCrop (dev_id_ d) c) (Live.setCrop c s)
              end).
  { unfold Live.handleCropChange. rewrite setCrop_dev. reflexivity. }
  split; [apply setCrop_crop|]. split; [exact Hh|].
  split; [apply handleCropChange_crop|]. split.
  - intros err. rewrite Hh. destruct (Live.dev s) as [d|]; [|exact I].
    cbv zeta. set (s0 := Live.setCrop c s).
    assert (Hlook : Live.inflight (Live.issue (Live.UpdateCurCrop (dev_id_ d) c) s0)
                      !! Live.next_id s0
              = Some {| Live.request := Live.UpdateCurCrop (dev_id_ d) c;
                        Live.cancelled := false |}).
    { cbn. apply lookup_insert_eq. }
    split; [exact Hlook|].
    unfold Live.step. rewrite Hlook. cbn [Live.resolve Live.request].
    destruct err as [e|]; cbn; split; try reflexivity; apply setCrop_crop.
  - intros dv c' b [e|] s'; reflexivity.
Qed.

(** ** Window statistics *)

Lemma vals_of_cons (r : Analytics.HistRow) (rows : list Analytics.HistRow) (k : ParamKey) :
  Analytics.vals_of (r :: rows) k
  = match Analytics.hist_get r k with
    | Some x => if PrimFloat.is_nan x then Analytics.vals_of rows k
                else x :: Analytics.vals_of rows k
    | None => Analytics.vals_of rows k
    end.
Proof.
  unfold Analytics.vals_of. cbn [map List.filter].
  destruct (Analytics.hist_get r k) as [x|]; cbn; [|reflexivity].
  unfold JS.Number_isNaN. destruct (PrimFloat.is_nan x); reflexivity.
Qed.

Lemma vals_of_In (rows : list Analytics.HistRow) (k : ParamKey) (x : float) :
  In x (Analytics.vals_of rows k)
  <-> exists r, In r rows /\ Analytics.hist_get r k = Some x /\ PrimFloat.is_nan x = false.
Proof.
  induction rows as [|r rows IH].
  - cbn. split; [tauto|]. intros (r & [] & _).
  - rewrite vals_of_cons. split.
    + destruct (Analytics.hist_get r k) as [y|] eqn:Ey.
      * destruct (PrimFloat.is_nan y) eqn:Hy.
        -- intros H. apply IH in H as (r' & Hin & H). exists r'. split; [now right|exact H].
        -- intros [<-|H].
           ++ exists r. repeat split; auto. now left.
           ++ apply IH in H as (r' & Hin & H). exists r'. split; [now right|exact H].
      * intros H. apply IH in H as (r' & Hin & H). exists r'. split; [now right|exact H].
    + intros (r' & [<-|Hin] & Hget & Hnan).
      * rewrite Hget, Hnan. now left.
      * assert (In x (Analytics.vals_of rows k)) by (apply IH; eauto).
        destruct (Analytics.hist_get r k) as [y|]; [|assumption].
        destruct (PrimFloat.is_nan y); [assumption|now right].
Qed.

Lemma vals_of_is_num (rows : list Analytics.HistRow) (k : ParamKey) :
  Forall is_num (Analytics.vals_of rows k).
Proof.
  apply List.Forall_forall. intros x Hx. apply vals_of_In in Hx as (_ & _ & _ & H). exact H.
Qed.

Lemma stat_absent (r0 : Analytics.HistRow) (rest : list Analytics.HistRow)
    (p : Analytics.SumParam) :
  Analytics.vals_of (r0 :: rest) (Analytics.key p) = [] ->
  Analytics.stat r0 rest p
  = {| Analytics.s_key := key_string (Analytics.key p);
       Analytics.s_label := Analytics.label p; Analytics.s_unit := Analytics.unit p;
       Analytics.min := None; Analytics.max := None;
       Analytics.avg := None; Analytics.last := None |}.
Proof.
  intros H. unfold Analytics.stat. cbv zeta. now rewrite H.
Qed.

Lemma stat_present (r0 : Analytics.HistRow) (rest : list Analytics.HistRow)
    (p : Analytics.SumParam) :
  let rows := r0 :: rest in
  let vals := Analytics.vals_of rows (Analytics.key p) in
  vals <> [] ->
  Analytics.stat r0 rest p
  = {| Analytics.s_key := key_string (Analytics.key p);
       Analytics.s_label := Analytics.label p; Analytics.s_unit := Analytics.unit p;
       Analytics.min := Some (JS.Math_min vals); Analytics.max := Some (JS.Math_max vals);
       Analytics.avg := Some (PrimFloat.div (Analytics.sum_of vals) (JS.length_number vals));
       Analytics.last := Analytics.hist_get (List.last rows r0) (Analytics.key p) |}.
Proof.
  cbv zeta. intros H. unfold Analytics.stat. cbv zeta.
  destruct (Analytics.vals_of (r0 :: rest) (Analytics.key p)); [congruence|reflexivity].
Qed.

Lemma stat_key (r0 : Analytics.HistRow) (rest : list Analytics.HistRow)
    (p : Analytics.SumParam) :
  Analytics.s_key (Analytics.stat r0 rest p) = key_string (Analytics.key p).
Proof.
  unfold Analytics.stat. cbv zeta.
  now destruct (Analytics.vals_of (r0 :: rest) (Analytics.key p)).
Qed.

Lemma lookup_map_Some {A B} (f : A -> B) (l : list A) (i : nat) (x : A) :
  l !! i = Some x -> map f l !! i = Some (f x).
Proof.
  revert i. induction l as [|a l IH]; intros [|i] H; try discriminate; cbn in *.
  - now injection H as ->.
  - now apply IH.
Qed.

Lemma stats_lookup (r0 : Analytics.HistRow) (rest : list Analytics.HistRow)
    (i : nat) (p : Analytics.SumParam) :
  Analytics.SUM_PARAMS !! i = Some p ->
  Analytics.stats (r0 :: rest) !! i = Some (Analytics.stat r0 rest p).
Proof.
  intros H. cbn [Analytics.stats]. now apply lookup_map_Some.
Qed.

(** C10. With no rows the summary is the empty list; with at least one row
    it has one entry per parameter of [SUM_PARAMS], seven in all, and the
    entry of a parameter without any number in the window has its four
    statistics absent. *)
Theorem stats_empty_window :
  Analytics.stats [] = []
  /\ (forall r0 rest,
        length (Analytics.stats (r0 :: rest)) = 7
        /\ map Analytics.s_key (Analytics.stats (r0 :: rest))
           = ["moist_pct"; "temp_c"; "ec_ms"; "ph"; "n_mgkg"; "p_mgkg"; "k_mgkg"])
  /\ (forall r0 rest i p,
        Analytics.SUM_PARAMS !! i = Some p ->
        Analytics.vals_of (r0 :: rest) (Analytics.key p) = [] ->
        exists st,
          Analytics.stats (r0 :: rest) !! i = Some st
          /\ Analytics.s_key st = key_string (Analytics.key p)
          /\ Analytics.min st = None /\ Analytics.max st = None
          /\ Analytics.avg st = None /\ Analytics.last st = None)
  /\ map (fun st => (Analytics.min st, Analytics.max st, Analytics.avg st, Analytics.last st))
       (Analytics.stats [Sample.hist None; Sample.hist None])
     = repeat (None, None, None, None) 7.
Proof.
  split; [reflexivity|]. split; [|split].
  - intros r0 rest. split; [reflexivity|].
    cbn [Analytics.stats Analytics.SUM_PARAMS map]. rewrite !stat_key. reflexivity.
  - intros r0 rest i p Hp Hvals. exists (Analytics.stat r0 rest p).
    split; [now apply stats_lookup|].
    rewrite stat_absent by assumption. cbn. repeat split.
  - vm_compute. reflexivity.
Qed.

(** The pH entry of a one-row window without any value. *)
Lemma stats_empty_window_witness :
  exists st,
    Analytics.stats [Sample.hist None] !! 3 = Some st
    /\ Analytics.s_key st = "ph"
    /\ Analytics.min st = None /\ Analytics.max st = None
    /\ Analytics.avg st = None /\ Analytics.last st = None.
Proof.
  exact (proj1 (proj2 (proj2 stats_empty_window)) (Sample.hist None) [] 3
           (Analytics.Build_SumParam ph "pH" "") eq_refl eq_refl).
Defined.

(** C2, as stated, fails on [last]: in a window whose only moisture value is
    NaN the last bucket holds NaN, yet the entry reports [last] absent. *)
Lemma last_absent_for_nan_window :
  let rows := [Sample.hist (Some PrimFloat.nan)] in
  exists st,
    Analytics.stats rows !! 0 = Some st
    /\ Analytics.s_key st = "moist_pct"
    /\ Analytics.last st = None
    /\ Analytics.hist_get (List.last rows (Sample.hist None)) moist_pct = Some PrimFloat.nan
    /\ Analytics.last st
       <> Analytics.hist_get (List.last rows (Sample.hist None)) moist_pct.
Proof.
  cbv zeta. eexists. split; [reflexivity|].
  split; [reflexivity|]. split; [reflexivity|]. split; [reflexivity|].
  vm_compute. discriminate.
Qed.

(** C2, amended. For a window with at least one row, the entry of each
    parameter is computed from [vals], exactly the values of that parameter
    that are neither null nor NaN: with no such value all four statistics are
    absent; otherwise [min] and [max] are the least and the greatest of
    [vals], [avg] is their sum divided by their number, and [last] is the
    parameter's value in the last row, null included. For the moisture window
    10, null, 30 the entry is min 10, max 30, avg 20, last 30; for the window
    10, null it is min 10, max 10, avg 10 and last absent. *)
Theorem stats_summary :
  (forall r0 rest i p,
     Analytics.SUM_PARAMS !! i = Some p ->
     let rows := r0 :: rest in
     let vals := Analytics.vals_of rows (Analytics.key p) in
     exists st,
       Analytics.stats rows !! i = Some st
       /\ Analytics.s_key st = key_string (Analytics.key p)
       /\ (forall x, In x vals <->
             exists r, In r rows /\ Analytics.hist_get r (Analytics.key p) = Some x
                       /\ PrimFloat.is_nan x = false)
       /\ (vals = [] ->
             Analytics.min st = None /\ Analytics.max st = None
             /\ Analytics.avg st = None /\ Analytics.last st = None)
       /\ (vals <> [] ->
             (exists m, Analytics.min st = Some m /\ In m vals
                        /\ Forall (fun x => PrimFloat.leb m x = true) vals)
             /\ (exists M, Analytics.max st = Some M /\ In M vals
                           /\ Forall (fun x => PrimFloat.leb x M = true) vals)
             /\ Analytics.avg st
                = Some (PrimFloat.div (Analytics.sum_of vals) (JS.length_number vals))
             /\ Analytics.last st = Analytics.hist_get (List.last rows r0) (Analytics.key p)))
  /\ map (fun st => (Analytics.s_key st, Analytics.min st, Analytics.max st,
                     Analytics.avg st, Analytics.last st))
       (take 1 (Analytics.stats
                  [Sample.hist (Some 10%float); Sample.hist None; Sample.hist (Some 30%float)]))
     = [("moist_pct", Some 10%float, Some 30%float, Some 20%float, Some 30%float)]
  /\ map (fun st => (Analytics.s_key st, Analytics.min st, Analytics.max st,
                     Analytics.avg st, Analytics.last st))
       (take 1 (Analytics.stats [Sample.hist (Some 10%float); Sample.hist None]))
     = [("moist_pct", Some 10%float, Some 10%float, Some 10%float, None)].
Proof.
  split; [|split].
  - intros r0 rest i p Hp. cbv zeta.
    exists (Analytics.stat r0 rest p). split; [now apply stats_lookup|].
    split; [apply stat_key|].
    split; [apply vals_of_In|]. split.
    + intros Hvals. rewrite stat_absent by assumption. cbn. repeat split.
    + intros Hvals. rewrite stat_present by assumption. cbn.
      pose proof (vals_of_is_num (r0 :: rest) (Analytics.key p)) as Hnum.
      destruct (Math_min_spec _ Hvals Hnum) as [Hmin1 Hmin2].
      destruct (Math_max_spec _ Hvals Hnum) as [Hmax1 Hmax2].
      repeat split; eauto.
  - vm_compute. reflexivity.
  - vm_compute. reflexivity.
Qed.

(** The moisture entry of the window 10, null, 30. *)
Lemma stats_summary_witness :
  exists st,
    Analytics.stats [Sample.hist (Some 10%float); Sample.hist None; Sample.hist (Some 30%float)]
      !! 0 = Some st
    /\ Analytics.s_key st = "moist_pct".
Proof.
  destruct (proj1 stats_summary (Sample.hist (Some 10%float))
              [Sample.hist None; Sample.hist (Some 30%float)] 0
              (Analytics.Build_SumParam moist_pct "Moisture" "%") eq_refl)
    as (st & Hst & Hkey & _).
  exists st. split; [exact Hst|exact Hkey].
Defined.

(** ** The live page as a transition system *)

Lemma loads_for_empty (c : Crop) : telem_loads_for c ∅.
Proof. intros id p c' H. now rewrite lookup_empty in H. Qed.

Lemma loads_for_insert (c : Crop) (m : gmap nat Live.Pending) (i : nat) (r : Live.Request) :
  telem_loads_for c m ->
  (forall c', r = Live.LoadTelem c' -> c' = c) ->
  telem_loads_for c (<[i := {| Live.request := r; Live.cancelled := false |}]> m).
Proof.
  intros Hm Hr id p c' Hlook Hreq Hc.
  destruct (decide (i = id)) as [->|Hne].
  - rewrite lookup_insert_eq in Hlook. injection Hlook as <-. now apply Hr.
  - rewrite lookup_insert_ne in Hlook by assumption. eapply Hm; eassumption.
Qed.

Lemma loads_for_cancel (c : Crop) (m : gmap nat Live.Pending) :
  telem_loads_for c (Live.cancel <$> m).
Proof.
  intros id p c' Hlook Hreq Hc.
  rewrite lookup_fmap in Hlook.
  destruct (m !! id) as [q|]; [|discriminate]. cbn in Hlook. injection Hlook as <-.
  unfold Live.cancel in *. destruct (Live.request q) eqn:E; cbn in *; congruence.
Qed.

Lemma loads_for_delete (c : Crop) (m : gmap nat Live.Pending) (i : nat) :
  telem_loads_for c m -> telem_loads_for c (delete i m).
Proof.
  intros Hm id p c' Hlook. apply lookup_delete_Some in Hlook as [_ Hlook].
  exact (Hm id p c' Hlook).
Qed.

Lemma scoped_issue (r : Live.Request) (s : Live.State) :
  scoped s -> (forall c', r = Live.LoadTelem c' -> c' = Live.crop s) ->
  scoped (Live.issue r s).
Proof.
  intros [Hch Hm] Hr. split; [exact Hch|]. cbn. now apply loads_for_insert.
Qed.

Lemma scoped_crop_effects (s : Live.State) : scoped (Live.crop_effects (Live.crop s) s).
Proof.
  unfold Live.crop_effects. cbv zeta.
  apply scoped_issue; [|discriminate]. apply scoped_issue; [|discriminate].
  split; [reflexivity|]. cbn.
  apply loads_for_insert; [apply loads_for_cancel|]. now intros c' [= <-].
Qed.

Lemma scoped_setCrop (c : Crop) (s : Live.State) : scoped s -> scoped (Live.setCrop c s).
Proof.
  intros Hs. unfold Live.setCrop. destruct (decide (c = Live.crop s)); [assumption|].
  exact (scoped_crop_effects (Live.with_crop c s)).
Qed.

Lemma scoped_mounted : scoped Live.mounted.
Proof.
  unfold Live.mounted. cbv zeta.
  apply scoped_issue; [|discriminate]. apply scoped_issue; [|discriminate].
  apply scoped_issue; [|discriminate].
  split; [reflexivity|]. cbn.
  apply loads_for_insert; [|now intros c' [= <-]].
  apply loads_for_insert; [apply loads_for_empty|discriminate].
Qed.

Lemma scoped_handleCropChange (c : Crop) (s : Live.State) :
  scoped s -> scoped (Live.handleCropChange c s).
Proof.
  intros Hs. unfold Live.handleCropChange.
  destruct (Live.dev (Live.setCrop c s)).
  - apply scoped_issue; [now apply scoped_setCrop|discriminate].
  - now apply scoped_setCrop.
Qed.

Lemma scoped_resolve (tl : string -> string) (p : Live.Pending) (resp : Live.Response)
    (s : Live.State) :
  scoped s -> scoped (Live.resolve tl p resp s).
Proof.
  intros Hs. destruct p as [req canc].
  destruct req, resp as [[[d|]|e]|[data|e]|[[data|]|e]|[data|e]|[data|e]|[e|]];
    cbn; try assumption; try (destruct canc; assumption).
  destruct (Live.truthy_crop (dev_cur_crop d)) as [c|]; [|assumption].
  exact (scoped_setCrop c (Live.setDev (Some d) s) Hs).
Qed.

Lemma scoped_step (tl : string -> string) (s : Live.State) (e : Live.Event) :
  scoped s -> scoped (Live.step tl s e).
Proof.
  intros Hs. destruct e as [c|id resp|row]; cbn.
  - destruct (Live.loading s); [assumption|now apply scoped_handleCropChange].
  - destruct (Live.inflight s !! id) as [p|]; [|assumption].
    apply scoped_resolve. destruct Hs as [Hch Hm]. split; [exact Hch|].
    cbn. now apply loads_for_delete.
  - unfold Live.on_payload. destruct (Live.channel s) as [c|]; [|assumption].
    destruct (String.eqb (t_crop row) c); assumption.
Qed.

Lemma scoped_reachable (tl : string -> string) (s : Live.State) :
  Live.reachable tl s -> scoped s.
Proof.
  induction 1 as [|s e _ IH _]; [apply scoped_mounted|now apply scoped_step].
Qed.

Lemma handleCropChange_telem (c : Crop) (s : Live.State) :
  Live.telem (Live.handleCropChange c s) = Live.telem s.
Proof.
  unfold Live.handleCropChange.
  destruct (Live.dev (Live.setCrop c s)); cbn; apply setCrop_telem.
Qed.

Lemma resolve_telem (tl : string -> string) (p : Live.Pending) (resp : Live.Response)
    (s : Live.State) :
  Live.telem (Live.resolve tl p resp s) = Live.telem s
  \/ exists c data,
       Live.request p = Live.LoadTelem c /\ Live.cancelled p = false
       /\ resp = Live.TelemRows (JS.Data data)
       /\ Live.telem (Live.resolve tl p resp s) = data
       /\ Live.crop (Live.resolve tl p resp s) = Live.crop s.
Proof.
  destruct p as [req canc].
  destruct req, resp as [[[d|]|e]|[data|e]|[[data|]|e]|[data|e]|[data|e]|[e|]];
    cbn; try (now left); try (destruct canc; now left).
  - left. destruct (Live.truthy_crop (dev_cur_crop d)) as [c|]; [|reflexivity].
    now rewrite setCrop_telem.
  - destruct canc; [now left|]. right. exists c, data. repeat split.
Qed.

(** C3, as stated, fails: after the pechay reading is loaded and the user
    selects okra, the page is in a reachable state whose selection is okra
    while the reading handed to the advisory functions is the pechay one. *)
Lemma stale_reading_rendered :
  let s := Live.run Sample.toLocaleString Live.mounted Sample.switch_after_snapshot in
  Live.reachable Sample.toLocaleString s
  /\ Live.crop s = "okra"
  /\ Live.advisory_reading s = Some Sample.dry
  /\ t_crop Sample.dry = "pechay"
  /\ Live.advisory Sample.numToString s
     = (Live.buildCropReco Sample.numToString (Some Sample.dry) ∅,
        Live.buildAltReco (Some Sample.dry) ∅ []).
Proof.
  cbv zeta. split; [|split; [|split; [|split]]].
  - unfold Live.run, Sample.switch_after_snapshot. cbn [fold_left].
    repeat (apply Live.reach_step; [|vm_compute; auto]).
    apply Live.reach_mounted.
  - vm_compute. reflexivity.
  - vm_compute. reflexivity.
  - reflexivity.
  - vm_compute. reflexivity.
Qed.

(** C3, amended. In every reachable state, a step stores a reading only if
    its crop is the selected crop: the current reading after the step is the
    one before it, or none, or a row of the crop selected after the step.
    Selecting a crop leaves the current reading as it is, so the reading
    loaded for the previous crop stays the input of the advisory functions
    until a load or a payload for the new crop replaces it. *)
Theorem stored_reading_is_of_selected_crop
    (toLocaleString : string -> string) (s : Live.State) (e : Live.Event)
    (Hreach : Live.reachable toLocaleString s)
    (Hfaithful : Live.faithful s e) :
  let s' := Live.step toLocaleString s e in
  (Live.telem s' = Live.telem s
   \/ Live.telem s' = None
   \/ exists row, Live.telem s' = Some row /\ t_crop row = Live.crop s')
  /\ (forall c, Live.telem (Live.setCrop c s) = Live.telem s
                /\ Live.telem (Live.handleCropChange c s) = Live.telem s
                /\ Live.telem (Live.step toLocaleString s (Live.Select c)) = Live.telem s).
Proof.
  pose proof (scoped_reachable _ _ Hreach) as [Hch Hloads].
  cbv zeta. split.
  - destruct e as [c|id resp|row]; cbn.
    + left. destruct (Live.loading s); [reflexivity|apply handleCropChange_telem].
    + cbn in Hfaithful.
      destruct (Live.inflight s !! id) as [p|] eqn:Hp; [|now left].
      destruct (resolve_telem toLocaleString p resp
                  (Live.with_inflight (delete id (Live.inflight s)) s))
        as [H|(c & data & Hreq & Hcanc & -> & Hdata & Hcrop)]; [now left|].
      right. destruct data as [row|]; [right|now left].
      exists row. split; [exact Hdata|]. rewrite Hcrop. cbn.
      unfold Live.answers in Hfaithful. rewrite Hreq in Hfaithful.
      rewrite Hfaithful. exact (Hloads id p c Hp Hreq Hcanc).
    + unfold Live.on_payload. rewrite Hch.
      destruct (String.eqb (t_crop row) (Live.crop s)) eqn:Heq; [|now left].
      right; right. exists row. split; [reflexivity|]. cbn.
      now apply String.eqb_eq.
  - intros c. split; [apply setCrop_telem|]. split; [apply handleCropChange_telem|].
    cbn. destruct (Live.loading s); [reflexivity|apply handleCropChange_telem].
Qed.

(** The first payload on the mounted page: a pechay row while pechay is
    selected. *)
Lemma stored_reading_is_of_selected_crop_witness :
  let s' := Live.step Sample.toLocaleString Live.mounted (Live.Payload Sample.pushed) in
  Live.telem s' = Live.telem Live.mounted
  \/ Live.telem s' = None
  \/ exists row, Live.telem s' = Some row /\ t_crop row = Live.crop s'.
Proof.
  refine (proj1 (stored_reading_is_of_selected_crop Sample.toLocaleString
                   Live.mounted (Live.Payload Sample.pushed) _ _)).
  - apply Live.reach_mounted.
  - exact I.
Defined.

(** C5, as stated, fails: a payload for the selected crop arrives while the
    latest-reading load is in flight and becomes the current reading; the
    load then resolves with an older row, which replaces it. *)
Lemma snapshot_overwrites_later_push :
  let s1 := Live.step Sample.toLocaleString Live.mounted (Live.Payload Sample.pushed) in
  let s2 := Live.run Sample.toLocaleString Live.mounted Sample.push_before_snapshot in
  Live.inflight Live.mounted !! 1
    = Some {| Live.request := Live.LoadTelem "pechay"; Live.cancelled := false |}
  /\ Live.telem s1 = Some Sample.pushed
  /\ String.ltb (t_upd_at Sample.dry) (t_upd_at Sample.pushed) = true
  /\ Live.telem s2 = Some Sample.dry
  /\ Live.telem s2 <> Some Sample.pushed.
Proof.
  cbv zeta. repeat split; try (vm_compute; reflexivity).
  vm_compute. discriminate.
Qed.

(** C5, amended. A latest-reading load that resolves without error sets the
    current reading to its result, a row or none, whenever its effect has not
    been cleaned up; the reading it replaces, pushed or not, and the
    timestamps play no part. A load whose effect was cleaned up, or that
    resolves with an error, leaves the current reading as it is. *)
Theorem snapshot_replaces_unconditionally
    (toLocaleString : string -> string) (s : Live.State) (id : nat) (c : Crop) (b : bool)
    (Hload : Live.inflight s !! id
             = Some {| Live.request := Live.LoadTelem c; Live.cancelled := b |}) :
  (forall data,
     Live.telem (Live.step toLocaleString s (Live.Resolve id (Live.TelemRows (JS.Data data))))
     = if b then Live.telem s else data)
  /\ (forall e,
        Live.telem (Live.step toLocaleString s (Live.Resolve id (Live.TelemRows (JS.Error e))))
        = Live.telem s).
Proof.
  split.
  - intros data. cbn. rewrite Hload. cbn. now destruct b.
  - intros e. cbn. rewrite Hload. reflexivity.
Qed.

(** The load sent at mount resolving after a payload. *)
Lemma snapshot_replaces_unconditionally_witness :
  Live.telem
    (Live.step Sample.toLocaleString
       (Live.step Sample.toLocaleString Live.mounted (Live.Payload Sample.pushed))
       (Live.Resolve 1 (Live.TelemRows (JS.Data (Some Sample.dry)))))
  = Some Sample.dry.
Proof.
  refine (proj1 (snapshot_replaces_unconditionally Sample.toLocaleString
                   (Live.step Sample.toLocaleString Live.mounted (Live.Payload Sample.pushed))
                   1 "pechay" false _) (Some Sample.dry)).
  vm_compute. reflexivity.
Defined.

(** C4, on the code: the chart load and the history load apply their rows
    without a [cancelled] check. A pechay load that resolves after the user
    has selected okra, and after the okra load, leaves pechay rows in
    [chartData] and in [rows] while okra is selected. *)
Theorem stale_history_applied :
  let live := Live.run Sample.toLocaleString Live.mounted Sample.slow_chart_load in
  let page := Analytics.run Analytics.mounted Sample.slow_history_load in
  (Live.crop live = "okra"
   /\ Live.chartData live = map (Live.chart_point Sample.toLocaleString) Sample.pechay_buckets
   /\ Live.chartData live <> map (Live.chart_point Sample.toLocaleString) Sample.okra_buckets)
  /\ (Analytics.crop page = "okra"
      /\ Analytics.rows page = map Analytics.hist_row Sample.pechay_buckets
      /\ map Analytics.h_crop (Analytics.rows page) = ["pechay"]).
Proof.
  cbv zeta. repeat split; try (vm_compute; reflexivity).
  vm_compute. discriminate.
Qed.

(** ** The bar cards of the live page *)






(** ** The lines of the two advisories *)

Lemma includes_false_not_In (l : list string) (x : string) :
  JS.includes l x = false -> ~ In x l.
Proof.
  unfold JS.includes. intros H Hin.
  assert (existsb (String.eqb x) l = true) as Ht.
  { apply existsb_exists. exists x. split; [assumption|apply String.eqb_refl]. }
  congruence.
Qed.

Lemma includes_true_In (l : list string) (x : string) :
  JS.includes l x = true -> In x l.
Proof.
  unfold JS.includes. intros H. apply existsb_exists in H as (y & Hin & Heq).
  apply String.eqb_eq in Heq. now subst.
Qed.

Lemma push_alt_cases (rc : list string) (altCrop : option Live.AltRec) :
  Live.push_alt rc altCrop = rc
  \/ exists a, altCrop = Some a /\ ~ In (Live.recommended_crop a) rc
               /\ Live.push_alt rc altCrop = (rc ++ [Live.recommended_crop a])%list.
Proof.
  unfold Live.push_alt. destruct altCrop as [a|]; [|now left].
  destruct (JS.includes rc (Live.recommended_crop a)) eqn:E; cbn; [now left|].
  right. exists a. repeat split. now apply includes_false_not_In.
Qed.

Lemma alt_condition_key (k : ParamKey) (v : float) (sp rr : string) :
  Live.alt_condition k v = Some (sp, rr) ->
  alt_key sp rr /\ (k = moist_pct \/ k = ec_ms \/ k = temp_c).
Proof.
  unfold alt_key. destruct k; cbn; try discriminate.
  - destruct (PrimFloat.ltb v 40); [|discriminate]. intros [= <- <-]. auto.
  - destruct (PrimFloat.ltb 30 v); [|discriminate]. intros [= <- <-]. auto.
  - destruct (PrimFloat.ltb 2 v); [|discriminate]. intros [= <- <-]. auto.
Qed.

Lemma find_alt_Some (alts : list Live.AltRec) (sp rr : string) (a : Live.AltRec) :
  Live.find_alt alts sp rr = Some a ->
  In a alts /\ Live.soil_param a = sp /\ Live.reading_range a = rr.
Proof.
  unfold Live.find_alt. intros H. apply find_some in H as [Hin H].
  apply andb_true_iff in H as [H1 H2].
  apply String.eqb_eq in H1, H2. auto.
Qed.

Lemma alt_step_cases (telem : TelemRow) (thrMap : gmap string Live.ThrRow)
    (alts : list Live.AltRec) (rc : list string) (p : Live.Param) :
  Live.alt_step telem thrMap alts rc p = rc
  \/ exists a,
       In a alts /\ alt_key (Live.soil_param a) (Live.reading_range a)
       /\ (Live.key p = moist_pct \/ Live.key p = ec_ms \/ Live.key p = temp_c)
       /\ ~ In (Live.recommended_crop a) rc
       /\ Live.alt_step telem thrMap alts rc p = (rc ++ [Live.recommended_crop a])%list.
Proof.
  unfold Live.alt_step.
  destruct (Live.numVal_of _) as [v|]; [|now left].
  destruct (JS.Number_isNaN v); [now left|].
  destruct (thrMap !! key_string (Live.key p)); [|now left].
  destruct (Live.alt_condition (Live.key p) v) as [[sp rr]|] eqn:Ec; [|now left].
  apply alt_condition_key in Ec as [Hk Hp].
  destruct (push_alt_cases rc (Live.find_alt alts sp rr)) as [H|(a & Hf & Hn & H)];
    [now left|right].
  apply find_alt_Some in Hf as (Hin & <- & <-). exists a. auto.
Qed.

Lemma NoDup_snoc {A} (l : list A) (x : A) : NoDup l -> ~ In x l -> NoDup (l ++ [x])%list.
Proof.
  intros Hl Hx. apply NoDup_app. split; [assumption|]. split.
  - intros y Hy Hin. apply list_elem_of_In in Hy.
    apply list_elem_of_In in Hin. destruct Hin as [<-|[]]. contradiction.
  - apply NoDup_singleton.
Qed.

Lemma alt_fold_sound (telem : TelemRow) (thrMap : gmap string Live.ThrRow)
    (alts : list Live.AltRec) (params : list Live.Param) (rc : list string) :
  let P := fun l : list string =>
             NoDup l
             /\ Forall (fun c => exists a, In a alts /\ Live.recommended_crop a = c
                          /\ alt_key (Live.soil_param a) (Live.reading_range a)) l in
  P rc ->
  let out := fold_left (Live.alt_step telem thrMap alts) params rc in
  P out
  /\ length out
     <= length rc
        + length (List.filter (fun p => bool_decide (Live.key p = moist_pct)
                                        || bool_decide (Live.key p = ec_ms)
                                        || bool_decide (Live.key p = temp_c)) params).
Proof.
  cbv zeta. revert rc. induction params as [|p params IH]; intros rc [Hnd Hall]; cbn.
  - split; [now split|lia].
  - destruct (alt_step_cases telem thrMap alts rc p) as [->|(a & Hin & Hk & Hp & Hn & ->)].
    + destruct (IH rc (conj Hnd Hall)) as [HP Hlen]. split; [exact HP|].
      destruct (_ || _); cbn; lia.
    + destruct (IH (rc ++ [Live.recommended_crop a])%list) as [HP Hlen].
      { split; [now apply NoDup_snoc|].
        apply Forall_app. split; [assumption|]. constructor; [|constructor]. eauto. }
      split; [exact HP|]. rewrite length_app in Hlen. cbn in Hlen.
      assert (bool_decide (Live.key p = moist_pct) || bool_decide (Live.key p = ec_ms)
              || bool_decide (Live.key p = temp_c) = true) as ->.
      { destruct Hp as [->|[->| ->]]; reflexivity. }
      cbn. lia.
Qed.

(** The crops collected by [buildAltReco] are pairwise distinct, at most
    three, and each is the [recommended_crop] of a row of the table filed
    under one of the three fixed keys. *)
Theorem alt_crops_sound (telem : TelemRow) (thrMap : gmap string Live.ThrRow)
    (alts : list Live.AltRec) :
  let crops := Live.alt_crops Live.PARAMS telem thrMap alts in
  NoDup crops
  /\ length crops <= 3
  /\ (forall c, In c crops ->
        exists a, In a alts /\ Live.recommended_crop a = c
                  /\ alt_key (Live.soil_param a) (Live.reading_range a))
  /\ (alts = [] -> crops = []).
Proof.
  cbv zeta. unfold Live.alt_crops.
  destruct (alt_fold_sound telem thrMap alts Live.PARAMS [])
    as [[Hnd Hall] Hlen]; [split; constructor|].
  split; [exact Hnd|]. split; [exact Hlen|]. split.
  - intros c Hc. rewrite List.Forall_forall in Hall. exact (Hall c Hc).
  - intros ->. destruct (fold_left _ _ _) as [|c l]; [reflexivity|].
    inversion Hall as [|? ? (a & [] & _) _].
Qed.

Lemma fold_left_In {A B} (f : list A -> B -> list A) (c : A) (l : list B) (b : B)
    (acc : list A) :
  In b l ->
  (forall acc, In c (f acc b)) ->
  (forall acc q, In c acc -> In c (f acc q)) ->
  In c (fold_left f l acc).
Proof.
  intros Hb Hadd Hkeep. revert acc.
  assert (Hmono : forall l acc, In c acc -> In c (fold_left f l acc)).
  { clear Hb. intros l'. induction l' as [|q l' IH]; intros acc Hc; cbn; [assumption|].
    apply IH. now apply Hkeep. }
  induction l as [|q l IH]; intros acc; [destruct Hb|].
  cbn. destruct Hb as [->|Hb].
  - apply Hmono. apply Hadd.
  - now apply IH.
Qed.

(** Whenever the reading has a number for one of the seven parameters, the
    threshold map has a rule for it, its fixed condition holds and the table
    has a row under the condition's key, the crop of the first such row is
    among the suggested crops. *)
Theorem alt_triggered_included
    (telem : TelemRow) (thrMap : gmap string Live.ThrRow) (alts : list Live.AltRec)
    (p : Live.Param) (v : float) (sp rr : string) (a : Live.AltRec)
    (Hp : In p Live.PARAMS)
    (Hv : telem_get telem (Live.key p) = JS.Num v)
    (Hnum : PrimFloat.is_nan v = false)
    (Hthr : is_Some (thrMap !! key_string (Live.key p)))
    (Hcond : Live.alt_condition (Live.key p) v = Some (sp, rr))
    (Hrow : Live.find_alt alts sp rr = Some a) :
  In (Live.recommended_crop a) (Live.alt_crops Live.PARAMS telem thrMap alts).
Proof.
  unfold Live.alt_crops. apply fold_left_In with (b := p); [exact Hp| |].
  - intros acc. unfold Live.alt_step. rewrite Hv. cbn [Live.numVal_of].
    unfold JS.Number_isNaN. rewrite Hnum. destruct Hthr as [t ->].
    rewrite Hcond, Hrow. unfold Live.push_alt.
    destruct (JS.includes acc (Live.recommended_crop a)) eqn:E; cbn.
    + now apply includes_true_In.
    + apply in_or_app. right. now left.
  - intros acc q Hc.
    destruct (alt_step_cases telem thrMap alts acc q) as [->|(b & _ & _ & _ & _ & ->)];
      [assumption|]. apply in_or_app. now left.
Qed.

(** Moisture 35 with a moisture rule: Lemongrass is suggested. *)
Lemma alt_triggered_included_witness :
  In "Lemongrass"
     (Live.alt_crops Live.PARAMS Sample.dry (Sample.moist_catalog 40 70) Sample.alt_rules).
Proof.
  refine (alt_triggered_included Sample.dry (Sample.moist_catalog 40 70) Sample.alt_rules
            Sample.moisture 35%float "Soil Moisture" "<40% (dry)"
            (Live.Build_AltRec "Soil Moisture" "<40% (dry)" "Lemongrass") _ _ _ _ _ _).
  - left. reflexivity.
  - reflexivity.
  - reflexivity.
  - eexists. vm_compute. reflexivity.
  - reflexivity.
  - reflexivity.
Defined.










(** With an empty table nothing is suggested. *)
Lemma alt_crops_sound_witness :
  Live.alt_crops Live.PARAMS Sample.dry (Sample.moist_catalog 40 70) [] = [].
Proof.
  destruct (alt_crops_sound Sample.dry (Sample.moist_catalog 40 70) []) as (_ & _ & _ & H).
  apply H. reflexivity.
Defined.

(** ** The threshold map *)

Lemma fold_left_snoc {A B} (f : A -> B -> A) (l : list B) (x : B) (a : A) :
  fold_left f (l ++ [x])%list a = f (fold_left f l a) x.
Proof. now rewrite fold_left_app. Qed.

(** The rule the pages use for a column name is built from the last row of
    the answer whose [param] is that name: later rows replace earlier ones,
    rows for other names do not interfere, and a name without row has no
    rule. The bounds of the rule are the numbers of that row. *)
Theorem build_thrMap_lookup (data : list Live.ThrDbRow) (k : string) :
  Live.build_thrMap data !! k
  = Live.thr_of_db <$> last (List.filter (fun row => String.eqb (Live.db_param row) k) data).
Proof.
  unfold Live.build_thrMap.
  induction data as [|row data IH] using rev_ind; [reflexivity|].
  rewrite fold_left_snoc, List.filter_app. cbn [List.filter].
  destruct (String.eqb (Live.db_param row) k) eqn:E.
  - apply String.eqb_eq in E. rewrite E, lookup_insert_eq, last_snoc. reflexivity.
  - apply String.eqb_neq in E. rewrite lookup_insert_ne by assumption.
    rewrite app_nil_r. exact IH.
Qed.

(** ** Window statistics, continued *)

(** Whenever a parameter has statistics, [min <= max], and every value of
    the parameter that is a number other than NaN lies between the two. *)
Theorem stats_min_le_max (r0 : Analytics.HistRow) (rest : list Analytics.HistRow)
    (i : nat) (p : Analytics.SumParam) (m M : float)
    (Hp : Analytics.SUM_PARAMS !! i = Some p)
    (Hmin : Analytics.min (Analytics.stat r0 rest p) = Some m)
    (Hmax : Analytics.max (Analytics.stat r0 rest p) = Some M) :
  Analytics.stats (r0 :: rest) !! i = Some (Analytics.stat r0 rest p)
  /\ PrimFloat.leb m M = true
  /\ (forall r x, In r (r0 :: rest) -> Analytics.hist_get r (Analytics.key p) = Some x ->
        PrimFloat.is_nan x = false ->
        PrimFloat.leb m x = true /\ PrimFloat.leb x M = true).
Proof.
  split; [now apply stats_lookup|].
  destruct (Analytics.vals_of (r0 :: rest) (Analytics.key p)) as [|x0 vals] eqn:E.
  { rewrite stat_absent in Hmin by assumption. discriminate. }
  assert (Hne : Analytics.vals_of (r0 :: rest) (Analytics.key p) <> []) by congruence.
  rewrite (stat_present r0 rest p Hne) in Hmin, Hmax. cbn in Hmin, Hmax.
  injection Hmin as <-. injection Hmax as <-.
  pose proof (vals_of_is_num (r0 :: rest) (Analytics.key p)) as Hnum.
  destruct (Math_min_spec _ Hne Hnum) as [_ Hlo].
  destruct (Math_max_spec _ Hne Hnum) as [_ Hhi].
  rewrite List.Forall_forall in Hlo, Hhi.
  assert (Hbetween : forall x, In x (Analytics.vals_of (r0 :: rest) (Analytics.key p)) ->
            PrimFloat.leb (JS.Math_min (Analytics.vals_of (r0 :: rest) (Analytics.key p))) x
            = true
            /\ PrimFloat.leb x (JS.Math_max (Analytics.vals_of (r0 :: rest) (Analytics.key p)))
               = true) by (intros x Hx; split; [now apply Hlo|now apply Hhi]).
  split.
  - destruct (Hbetween x0) as [H1 H2]; [rewrite E; now left|].
    eapply leb_trans; eassumption.
  - intros r x Hr Hx Hnan. apply Hbetween. apply vals_of_In. eauto.
Qed.

(** The moisture window 10, null, 30. *)
Lemma stats_min_le_max_witness : PrimFloat.leb 10 30 = true.
Proof.
  refine (proj1 (proj2 (stats_min_le_max (Sample.hist (Some 10%float))
            [Sample.hist None; Sample.hist (Some 30%float)] 0
            (Analytics.Build_SumParam moist_pct "Moisture" "%") 10%float 30%float
            _ _ _))); reflexivity.
Defined.



(** ** The live page, continued *)













(** In every reachable state exactly the payloads of the selected crop are
    accepted: a payload for another crop leaves the whole state as it is, and
    a payload for the selected crop becomes the current reading and changes
    nothing else. *)
Theorem payload_filtered
    (toLocaleString : string -> string) (s : Live.State) (row : TelemRow)
    (Hreach : Live.reachable toLocaleString s) :
  (t_crop row <> Live.crop s -> Live.step toLocaleString s (Live.Payload row) = s)
  /\ (t_crop row = Live.crop s ->
      Live.step toLocaleString s (Live.Payload row) = Live.setTelem (Some row) s)
  /\ Live.channel s = Some (Live.crop s).
Proof.
  pose proof (scoped_reachable _ _ Hreach) as [Hch _].
  cbn. unfold Live.on_payload. rewrite Hch. repeat split.
  - intros Hne. apply String.eqb_neq in Hne. now rewrite Hne.
  - intros Heq. apply String.eqb_eq in Heq. now rewrite Heq.
Qed.

(** A pechay payload on the page just mounted, where pechay is selected. *)
Lemma payload_filtered_witness :
  Live.step Sample.toLocaleString Live.mounted (Live.Payload Sample.pushed)
  = Live.setTelem (Some Sample.pushed) Live.mounted.
Proof.
  refine (proj1 (proj2 (payload_filtered Sample.toLocaleString Live.mounted Sample.pushed
                          (Live.reach_mounted _))) _).
  reflexivity.
Defined.

(** ** The history log *)

Lemma safe_col_allowed (c : string) : In (Database.safe_col c) Database.ALLOWED_SORT_COLUMNS.
Proof.
  unfold Database.safe_col.
  destruct (JS.includes Database.ALLOWED_SORT_COLUMNS c) eqn:E.
  - now apply includes_true_In.
  - now left.
Qed.

Lemma safe_col_id (c : string) :
  In c Database.ALLOWED_SORT_COLUMNS -> Database.safe_col c = c.
Proof.
  intros Hc. unfold Database.safe_col.
  destruct (JS.includes Database.ALLOWED_SORT_COLUMNS c) eqn:E; [reflexivity|].
  now apply includes_false_not_In in E.
Qed.

Lemma toggleSort_col (c : string) (b : Database.SortBy) :
  Database.col (Database.toggleSort c b) = Database.safe_col c.
Proof.
  unfold Database.toggleSort. cbv zeta.
  now destruct (String.eqb (Database.col b) (Database.safe_col c)).
Qed.

(** Clicking a column header: the sort column becomes the clicked column if
    it is an allowed one and [bkt_30m] otherwise, so it is always allowed; a
    column that was not the sort column starts ascending, the sort column
    flips its direction, and from the second click on the same header the
    direction alternates, a third click giving what the first gave. *)
Theorem toggleSort_alternates (c : string) (b : Database.SortBy) :
  let b1 := Database.toggleSort c b in
  Database.col b1 = Database.safe_col c
  /\ In (Database.col b1) Database.ALLOWED_SORT_COLUMNS
  /\ (In c Database.ALLOWED_SORT_COLUMNS -> Database.col b1 = c)
  /\ (~ In c Database.ALLOWED_SORT_COLUMNS -> Database.col b1 = "bkt_30m")
  /\ (Database.col b <> Database.safe_col c -> Database.asc b1 = true)
  /\ (Database.col b = Database.safe_col c -> Database.asc b1 = negb (Database.asc b))
  /\ Database.toggleSort c b1
     = {| Database.col := Database.col b1; Database.asc := negb (Database.asc b1) |}
  /\ Database.toggleSort c (Database.toggleSort c b1) = b1.
Proof.
  cbv zeta.
  assert (Hsafe : Database.safe_col (Database.safe_col c) = Database.safe_col c)
    by (apply safe_col_id, safe_col_allowed).
  assert (Htwice : forall b', Database.col b' = Database.safe_col c ->
            Database.toggleSort c b'
            = {| Database.col := Database.col b'; Database.asc := negb (Database.asc b') |}).
  { intros b' Hb'. unfold Database.toggleSort. cbv zeta.
    rewrite Hb', String.eqb_refl. reflexivity. }
  split; [apply toggleSort_col|]. split; [rewrite toggleSort_col; apply safe_col_allowed|].
  split; [intros Hc; rewrite toggleSort_col; now apply safe_col_id|].
  split.
  { intros Hc. rewrite toggleSort_col. unfold Database.safe_col.
    destruct (JS.includes Database.ALLOWED_SORT_COLUMNS c) eqn:E; [|reflexivity].
    now apply includes_true_In in E. }
  split.
  { intros Hne. apply String.eqb_neq in Hne. unfold Database.toggleSort. cbv zeta.
    now rewrite Hne. }
  split.
  { intros Heq. apply String.eqb_eq in Heq. unfold Database.toggleSort. cbv zeta.
    now rewrite Heq. }
  split; [apply Htwice, toggleSort_col|].
  rewrite (Htwice (Database.toggleSort c b)) by apply toggleSort_col.
  rewrite Htwice by (cbn; apply toggleSort_col).
  cbn. rewrite negb_involutive. now destruct (Database.toggleSort c b).
Qed.

(** A header that is not sortable falls back to the time column. *)
Lemma toggleSort_alternates_witness :
  Database.col (Database.toggleSort "device" (Database.Build_SortBy "ph" true)) = "bkt_30m".
Proof.
  destruct (toggleSort_alternates "device" (Database.Build_SortBy "ph" true))
    as (_ & _ & _ & H & _).
  apply H. vm_compute. intuition discriminate.
Defined.

(** The export asks the store for what the table asks: after the select
    clause, which differs only in the row count, the two queries consist of
    the same time, crop, limit and order clauses, in a different call
    order. *)
Theorem export_query_same_clauses
    (trim : string -> string) (getTimeThreshold : Database.TimeFilter -> string)
    (s : Database.State) :
  exists clauses,
    Database.load_query trim getTimeThreshold s = Database.Select true :: clauses
    /\ exists clauses',
         Database.export_query trim getTimeThreshold s = Database.Select false :: clauses'
         /\ Permutation clauses clauses'
         /\ Forall (fun c => c <> Database.Select true /\ c <> Database.Select false) clauses.
Proof.
  unfold Database.load_query, Database.export_query.
  eexists. split; [reflexivity|]. eexists. split; [reflexivity|]. split.
  - cbn [app]. apply Permutation_cons; [reflexivity|].
    rewrite app_assoc. apply Permutation_cons_append.
  - repeat constructor; try discriminate.
    apply Forall_app. split.
    + unfold Database.ilike_clause. destruct (negb _); repeat constructor; discriminate.
    + unfold Database.limit_clause. destruct (Database.rowLimit s);
        repeat constructor; discriminate.
Qed.

Section HistoryLog.

Variable trim : string -> string.
Variable getTimeThreshold : Database.TimeFilter -> string.

Let load_effect := Database.load_effect trim getTimeThreshold.
Let step := Database.step trim getTimeThreshold.
Let inv := latest_only trim getTimeThreshold.

Lemma latest_only_load_effect (s : Database.State) :
  In (Database.col (Database.sortBy s)) Database.ALLOWED_SORT_COLUMNS ->
  inv (load_effect s).
Proof.
  intros Hcol. split; [|split].
  - intros id p Hlook Hc. cbn in Hlook.
    destruct (decide (Database.next_id s = id)) as [<-|Hne].
    + rewrite lookup_insert_eq in Hlook. injection Hlook as <-. split; reflexivity.
    + rewrite lookup_insert_ne, lookup_fmap in Hlook by assumption.
      destruct (Database.inflight s !! id); [|discriminate].
      cbn in Hlook. injection Hlook as <-. discriminate.
  - cbn. split; [|reflexivity]. intros _. eexists.
    split; [apply lookup_insert_eq|reflexivity].
  - exact Hcol.
Qed.

Lemma latest_only_mounted : inv (Database.mounted trim getTimeThreshold).
Proof. apply latest_only_load_effect. now left. Qed.

Lemma latest_only_step (s : Database.State) (e : Database.Event) :
  inv s -> inv (step s e).
Proof.
  unfold inv, step. intros (Hlive & Hload & Hcol).
  destruct e as [v|f|l|c|id res]; cbn [Database.step].
  - unfold Database.setSearch. destruct (decide (v = Database.search s));
      [exact (conj Hlive (conj Hload Hcol))|]. now apply latest_only_load_effect.
  - unfold Database.setTimeFilter. destruct (decide (f = Database.timeFilter s));
      [exact (conj Hlive (conj Hload Hcol))|]. now apply latest_only_load_effect.
  - unfold Database.setRowLimit. destruct (decide (l = Database.rowLimit s));
      [exact (conj Hlive (conj Hload Hcol))|]. now apply latest_only_load_effect.
  - apply latest_only_load_effect. cbn. rewrite toggleSort_col. apply safe_col_allowed.
  - destruct (Database.inflight s !! id) as [p|] eqn:Hp; [|exact (conj Hlive (conj Hload Hcol))].
    assert (Hrest : forall id' p', delete id (Database.inflight s) !! id' = Some p' ->
              Database.cancelled p' = false -> False \/ (id' <> id /\ S id' = Database.next_id s)).
    { intros id' p' Hl Hc. apply lookup_delete_Some in Hl as [Hne Hl].
      right. split; [congruence|]. now destruct (Hlive id' p' Hl Hc). }
    destruct (Database.cancelled p) eqn:Hcanc.
    + (* a load whose effect was cleaned up *)
      assert (Hkeep : (exists p', delete id (Database.inflight s)
                                    !! pred (Database.next_id s) = Some p'
                                  /\ Database.cancelled p' = false)
                <-> (exists p', Database.inflight s !! pred (Database.next_id s) = Some p'
                                /\ Database.cancelled p' = false)).
      { split; intros (p' & Hl & Hc); exists p'; split; try assumption.
        - now apply lookup_delete_Some in Hl as [_ Hl].
        - apply lookup_delete_Some. split; [|assumption]. intros Heq. subst id. congruence. }
      destruct res as [[data count]|err]; unfold Database.resolve; rewrite Hcanc.
      * split; [|split]; cbn; [|now rewrite Hkeep|assumption].
        intros id' p' Hl Hc. apply lookup_delete_Some in Hl as [_ Hl].
        exact (Hlive id' p' Hl Hc).
      * split; [|split]; cbn; [|now rewrite Hkeep|assumption].
        intros id' p' Hl Hc. apply lookup_delete_Some in Hl as [_ Hl].
        exact (Hlive id' p' Hl Hc).
    + (* the live load *)
      destruct (Hlive id p Hp Hcanc) as [Hid _].
      assert (Hnone : forall id' p', delete id (Database.inflight s) !! id' = Some p' ->
                Database.cancelled p' = false -> False).
      { intros id' p' Hl Hc. destruct (Hrest id' p' Hl Hc) as [[]|[Hne Hid']]. lia. }
      destruct res as [[data count]|err]; unfold Database.resolve; rewrite Hcanc.
      * split; [|split]; cbn; [| |assumption].
        -- intros id' p' Hl Hc. destruct (Hnone id' p' Hl Hc).
        -- split; [discriminate|]. intros (p' & Hl & Hc). destruct (Hnone _ _ Hl Hc).
      * split; [|split]; cbn; [| |assumption].
        -- intros id' p' Hl Hc. destruct (Hnone id' p' Hl Hc).
        -- split; [discriminate|]. intros (p' & Hl & Hc). destruct (Hnone _ _ Hl Hc).
Qed.

Lemma latest_only_reachable (s : Database.State) :
  Database.reachable trim getTimeThreshold s -> inv s.
Proof.
  induction 1 as [|s e _ IH]; [apply latest_only_mounted|now apply latest_only_step].
Qed.

End HistoryLog.

(** In every reachable state of the history log: the loading flag is up
    exactly while a load whose effect has not been cleaned up is in flight;
    such a load is the one sent last and carries the query of the current
    search, time window, limit and sort order; the sort column is an allowed
    one, so the fallback to [bkt_30m] never applies; and resolving any other
    load changes neither the rows, nor the total, nor the loading flag. *)
Theorem history_log_latest_only
    (trim : string -> string) (getTimeThreshold : Database.TimeFilter -> string)
    (s : Database.State)
    (Hreach : Database.reachable trim getTimeThreshold s) :
  (Database.loading s = true <->
     exists id p, Database.inflight s !! id = Some p /\ Database.cancelled p = false)
  /\ (forall id p,
        Database.inflight s !! id = Some p -> Database.cancelled p = false ->
        S id = Database.next_id s
        /\ Database.query p = Database.load_query trim getTimeThreshold s)
  /\ Database.safe_col (Database.col (Database.sortBy s)) = Database.col (Database.sortBy s)
  /\ (forall id res,
        let s' := Database.step trim getTimeThreshold s (Database.Resolve id res) in
        (Database.rows s' = Database.rows s /\ Database.total s' = Database.total s
         /\ Database.loading s' = Database.loading s)
        \/ (exists p, Database.inflight s !! id = Some p /\ Database.cancelled p = false
                      /\ S id = Database.next_id s
                      /\ Database.query p = Database.load_query trim getTimeThreshold s
                      /\ Database.loading s' = false)).
Proof.
  destruct (latest_only_reachable trim getTimeThreshold s Hreach) as (Hlive & Hload & Hcol).
  split; [|split; [exact Hlive|split; [now apply safe_col_id|]]].
  - rewrite Hload. split.
    + intros (p & Hl & Hc). eauto.
    + intros (id & p & Hl & Hc). destruct (Hlive id p Hl Hc) as [Hid _].
      exists p. rewrite <- Hid. cbn. auto.
  - intros id res. cbn.
    destruct (Database.inflight s !! id) as [p|] eqn:Hp; [|now left].
    destruct (Database.cancelled p) eqn:Hcanc.
    + left. destruct res as [[data count]|err]; unfold Database.resolve; rewrite Hcanc;
        repeat split.
    + right. exists p. destruct (Hlive id p Hp Hcanc) as [Hid Hq].
      repeat split; try assumption.
      destruct res as [[data count]|err]; unfold Database.resolve; rewrite Hcanc; reflexivity.
Qed.

(** The page just mounted is loading, with load 0 in flight. *)
Lemma history_log_latest_only_witness :
  Database.loading (Database.mounted Sample.trim Sample.getTimeThreshold)
  = true.
Proof.
  apply (proj1 (history_log_latest_only Sample.trim
                  Sample.getTimeThreshold
                  (Database.mounted Sample.trim Sample.getTimeThreshold)
                  (Database.reach_mounted _ _))).
  exists 0, {| Database.query :=
                 Database.load_query Sample.trim Sample.getTimeThreshold
                   (Database.mounted Sample.trim Sample.getTimeThreshold);
               Database.cancelled := false |}.
  split; reflexivity.
Defined.

(** ** Answers that arrive after the selection changed *)

Lemma fresh_issue (r : Live.Request) (s : Live.State) : fresh_ids s -> fresh_ids (Live.issue r s).
Proof.
  intros Hs id p Hl. cbn in Hl |- *.
  destruct (decide (Live.next_id s = id)) as [<-|Hne]; [lia|].
  rewrite lookup_insert_ne in Hl by assumption. specialize (Hs id p Hl). lia.
Qed.

Lemma fresh_crop_effects (c : Crop) (s : Live.State) :
  fresh_ids s -> fresh_ids (Live.crop_effects c s).
Proof.
  intros Hs. unfold Live.crop_effects. cbv zeta.
  apply fresh_issue. apply fresh_issue.
  assert (H1 : fresh_ids (Live.issue (Live.LoadTelem c)
                 (Live.with_channel None
                    (Live.with_inflight (Live.cancel <$> Live.inflight s) s)))).
  { apply fresh_issue. intros id p Hl. cbn in Hl |- *. rewrite lookup_fmap in Hl.
    destruct (Live.inflight s !! id) as [q|] eqn:Hq; [|discriminate].
    exact (Hs id q Hq). }
  exact H1.
Qed.

Lemma fresh_setCrop (c : Crop) (s : Live.State) : fresh_ids s -> fresh_ids (Live.setCrop c s).
Proof.
  intros Hs. unfold Live.setCrop. destruct (decide (c = Live.crop s)); [assumption|].
  now apply fresh_crop_effects.
Qed.

Lemma fresh_mounted : fresh_ids Live.mounted.
Proof.
  unfold Live.mounted. cbv zeta.
  apply fresh_issue. apply fresh_issue. apply fresh_issue.
  assert (H1 : forall s, fresh_ids s -> fresh_ids (Live.with_channel (Some (Live.crop s)) s))
    by (intros s Hs; exact Hs).
  apply (fresh_issue (Live.LoadTelem "pechay")). apply fresh_issue.
  intros id p Hl. cbn in Hl. now rewrite lookup_empty in Hl.
Qed.

Lemma fresh_resolve (tl : string -> string) (p : Live.Pending) (resp : Live.Response)
    (s : Live.State) :
  fresh_ids s -> fresh_ids (Live.resolve tl p resp s).
Proof.
  intros Hs. destruct p as [req canc].
  destruct req, resp as [[[d|]|e]|[data|e]|[[data|]|e]|[data|e]|[data|e]|[e|]];
    cbn; try assumption; try (destruct canc; assumption).
  destruct (Live.truthy_crop (dev_cur_crop d)) as [c|]; [|assumption].
  exact (fresh_setCrop c (Live.setDev (Some d) s) Hs).
Qed.

Lemma fresh_step (tl : string -> string) (s : Live.State) (e : Live.Event) :
  fresh_ids s -> fresh_ids (Live.step tl s e).
Proof.
  intros Hs. destruct e as [c|id resp|row]; cbn.
  - destruct (Live.loading s); [assumption|]. unfold Live.handleCropChange.
    destruct (Live.dev (Live.setCrop c s)).
    + apply fresh_issue. now apply fresh_setCrop.
    + now apply fresh_setCrop.
  - destruct (Live.inflight s !! id) as [p|]; [|assumption].
    apply fresh_resolve. intros id' p' Hl. cbn in Hl |- *.
    apply lookup_delete_Some in Hl as [_ Hl]. exact (Hs id' p' Hl).
  - unfold Live.on_payload. destruct (Live.channel s) as [c|]; [|assumption].
    destruct (String.eqb (t_crop row) c); assumption.
Qed.

Lemma fresh_reachable (tl : string -> string) (s : Live.State) :
  Live.reachable tl s -> fresh_ids s.
Proof.
  induction 1 as [|s e _ IH _]; [apply fresh_mounted|now apply fresh_step].
Qed.

Lemma resolve_cancelled (tl : string -> string) (p : Live.Pending) (resp : Live.Response)
    (s : Live.State) :
  Live.cancelled p = true ->
  (exists c, Live.request p = Live.LoadTelem c \/ Live.request p = Live.LoadThr c) ->
  Live.telem (Live.resolve tl p resp s) = Live.telem s
  /\ Live.thrMap (Live.resolve tl p resp s) = Live.thrMap s
  /\ Live.crop (Live.resolve tl p resp s) = Live.crop s
  /\ Live.chartData (Live.resolve tl p resp s) = Live.chartData s.
Proof.
  destruct p as [req canc]. cbn. intros -> (c & [->| ->]);
    destruct resp as [[[d|]|e]|[data|e]|[[data|]|e]|[data|e]|[data|e]|[e|]];
    cbn; repeat split.
Qed.

(** When the user selects another crop, every latest-reading load and
    threshold load sent before is still in flight but marked cancelled, and
    whatever it later resolves with changes neither the current reading, nor
    the threshold map, nor the selection. *)
Theorem crop_change_drops_pending_answers
    (toLocaleString : string -> string) (s : Live.State) (c : Crop)
    (id : nat) (p : Live.Pending) (resp : Live.Response)
    (Hreach : Live.reachable toLocaleString s)
    (Hother : c <> Live.crop s)
    (Hp : Live.inflight s !! id = Some p)
    (Hkind : exists c0, Live.request p = Live.LoadTelem c0 \/ Live.request p = Live.LoadThr c0) :
  let s1 := Live.handleCropChange c s in
  let s2 := Live.step toLocaleString s1 (Live.Resolve id resp) in
  Live.inflight s1 !! id = Some {| Live.request := Live.request p; Live.cancelled := true |}
  /\ Live.crop s1 = c
  /\ Live.telem s2 = Live.telem s1
  /\ Live.thrMap s2 = Live.thrMap s1
  /\ Live.crop s2 = c.
Proof.
  pose proof (fresh_reachable _ _ Hreach id p Hp) as Hid.
  cbv zeta.
  assert (Hset : Live.inflight (Live.setCrop c s) !! id
            = Some {| Live.request := Live.request p; Live.cancelled := true |}
            /\ Live.next_id s < Live.next_id (Live.setCrop c s)).
  { unfold Live.setCrop. destruct (decide (c = Live.crop s)); [contradiction|].
    unfold Live.crop_effects, Live.issue. cbn. split; [|lia].
    rewrite !lookup_insert_ne by lia. rewrite lookup_fmap, Hp. cbn.
    unfold Live.cancel. destruct Hkind as (c0 & [->| ->]); reflexivity. }
  destruct Hset as [Hset Hnext].
  assert (Hlook : Live.inflight (Live.handleCropChange c s) !! id
            = Some {| Live.request := Live.request p; Live.cancelled := true |}).
  { unfold Live.handleCropChange. destruct (Live.dev (Live.setCrop c s)); [|exact Hset].
    cbn. rewrite lookup_insert_ne by lia. exact Hset. }
  split; [exact Hlook|]. split; [apply handleCropChange_crop|].
  cbn [Live.step]. rewrite Hlook.
  destruct (resolve_cancelled toLocaleString
              {| Live.request := Live.request p; Live.cancelled := true |} resp
              (Live.with_inflight (delete id (Live.inflight (Live.handleCropChange c s)))
                 (Live.handleCropChange c s)) eq_refl Hkind) as (Ht & Hm & Hc & _).
  split; [exact Ht|]. split; [exact Hm|]. rewrite Hc. cbn. apply handleCropChange_crop.
Qed.

(** The pechay reading load of the mounted page answered after okra was
    selected. *)
Lemma crop_change_drops_pending_answers_witness :
  Live.telem
    (Live.step Sample.toLocaleString (Live.handleCropChange "okra" Live.mounted)
       (Live.Resolve 1 (Live.TelemRows (JS.Data (Some Sample.dry)))))
  = Live.telem (Live.handleCropChange "okra" Live.mounted).
Proof.
  refine (proj1 (proj2 (proj2 (crop_change_drops_pending_answers Sample.toLocaleString
            Live.mounted "okra" 1
            {| Live.request := Live.LoadTelem "pechay"; Live.cancelled := false |}
            (Live.TelemRows (JS.Data (Some Sample.dry))) (Live.reach_mounted _) _ _ _)))).
  - discriminate.
  - reflexivity.
  - exists "pechay". now left.
Defined.

(** ** The bar chart of the analytics page *)

(** The bar chart has one group of bars per entry of the summary, labelled
    as the entry; a parameter without any number in the window is drawn with
    its three bars at 0, as a parameter whose statistics are 0 would be, and
    otherwise the bars are the minimum, the maximum and the average. *)
Theorem graphData_zero_when_absent (r0 : Analytics.HistRow) (rest : list Analytics.HistRow)
    (i : nat) (p : Analytics.SumParam)
    (Hp : Analytics.SUM_PARAMS !! i = Some p) :
  let vals := Analytics.vals_of (r0 :: rest) (Analytics.key p) in
  Analytics.graphData (Analytics.stats []) = []
  /\ length (Analytics.graphData (Analytics.stats (r0 :: rest))) = 7
  /\ exists g,
       Analytics.graphData (Analytics.stats (r0 :: rest)) !! i = Some g
       /\ Analytics.g_label g = Analytics.label p
       /\ (vals = [] ->
           Analytics.g_min g = 0%float /\ Analytics.g_max g = 0%float
           /\ Analytics.g_avg g = 0%float)
       /\ (vals <> [] ->
           Analytics.g_min g = JS.Math_min vals /\ Analytics.g_max g = JS.Math_max vals
           /\ Analytics.g_avg g = PrimFloat.div (Analytics.sum_of vals) (JS.length_number vals)).
Proof.
  cbv zeta. split; [reflexivity|]. split; [reflexivity|].
  eexists. split.
  { unfold Analytics.graphData. apply lookup_map_Some. apply stats_lookup. exact Hp. }
  cbn. split; [|split].
  - unfold Analytics.stat. cbv zeta.
    now destruct (Analytics.vals_of (r0 :: rest) (Analytics.key p)).
  - intros H. rewrite stat_absent by assumption. repeat split.
  - intros H. rewrite stat_present by assumption. repeat split.
Qed.

(** The pH group of a window without pH values. *)
Lemma graphData_zero_when_absent_witness :
  exists g,
    Analytics.graphData (Analytics.stats [Sample.hist (Some 10%float)]) !! 3 = Some g
    /\ Analytics.g_min g = 0%float.
Proof.
  destruct (graphData_zero_when_absent (Sample.hist (Some 10%float)) [] 3
              (Analytics.Build_SumParam ph "pH" "") eq_refl) as (_ & _ & g & Hg & _ & H0 & _).
  exists g. split; [exact Hg|]. now apply H0.
Defined.
